(** * Weekly inventory allocation engine (src/database.py)

    Shallow embedding of [calcular_asignacion_semanal_secuencial] and of the
    month configuration built by [get_distribucion_semanal_inventario].

    Numbers.  The Python code computes on float64 values read from the data
    frame.  They are embedded as exact rationals ([Q]); Python's [round]
    (round half to even, returning an int) is [py_round : Q -> Z].  The
    rounding error of the binary representation is outside the embedding.
    The concrete data frames used below hold values that float64 represents
    exactly, and the values the code rounds on them are whole numbers or
    dyadic fractions away from a tie.

    Data frame.  A data frame is a list of rows in row order; [groupby]
    visits the keys in ascending order, [unique] keeps first occurrences,
    boolean-mask selection is [filter], [.iloc[0]] is the head of the list. *)

From Stdlib Require Import ZArith QArith Qround Qminmax Qabs.
From Stdlib Require Import List String Bool Lia Lqa Sorted.
Import ListNotations.
Open Scope Q_scope.

(* ================================================================== *)
(** ** Numeric layer *)

Module Num.

(** [x < y] on floats, as a boolean. *)
Definition Qltb (x y : Q) : bool := negb (Qle_bool y x).

(** Python's built-in [round(x)] with one argument: nearest integer, ties
    go to the even neighbour. *)
Definition py_round (x : Q) : Z :=
  let f := Qfloor x in
  match Qcompare (x - inject_Z f) (1 # 2) with
  | Lt => f
  | Gt => (f + 1)%Z
  | Eq => if Z.even f then f else (f + 1)%Z
  end.

(** Python's [sum(xs)]: left fold starting at 0. *)
Definition suma (xs : list Q) : Q := fold_left Qplus xs 0.

Definition suma_Z (xs : list Z) : Z := fold_left Z.add xs 0%Z.

End Num.
Import Num.

(* ================================================================== *)
(** ** Generic helpers for data-frame operations *)

Module Frame.

Section Orden.
Variable A : Type.
Variable leb : A -> A -> bool.

Fixpoint insertar (x : A) (l : list A) : list A :=
  match l with
  | [] => [x]
  | y :: r => if leb x y then x :: l else y :: insertar x r
  end.

(** [sorted(l)]: ascending, stable. *)
Definition ordenar (l : list A) : list A :=
  fold_right insertar [] l.
End Orden.

Arguments insertar {A} leb x l.
Arguments ordenar {A} leb l.

(** [Series.unique()]: distinct values in order of first appearance. *)
Fixpoint unique_aux (vistos : list string) (l : list string) : list string :=
  match l with
  | [] => []
  | x :: r =>
      if existsb (String.eqb x) vistos then unique_aux vistos r
      else x :: unique_aux (x :: vistos) r
  end.

Definition unique (l : list string) : list string := unique_aux [] l.

End Frame.
Import Frame.

(* ================================================================== *)
(** ** Data model *)

(** A calendar date, compared lexicographically (the configuration writes
    dates as ISO strings 'YYYY-MM-DD', whose string order is date order). *)
Record Fecha := mkFecha { f_anio : Z; f_mes : Z; f_dia : Z }.

Definition fecha_ltb (a b : Fecha) : bool :=
  ((f_anio a <? f_anio b)
   || ((f_anio a =? f_anio b)
       && ((f_mes a <? f_mes b)
           || ((f_mes a =? f_mes b) && (f_dia a <? f_dia b)))))%Z.

(** One entry of [meses_config]. *)
Record Config := mkConfig {
  semanas : list Z;
  anio : Z;
  fechas_inicio : list Fecha;
  fechas_fin : list Fecha;
  fechas_inventario : list Fecha;
  factores_estacionalidad : list (Z * Q)
}.

(** [factores.get(s, 1.0)] *)
Fixpoint factores_get (factores : list (Z * Q)) (s : Z) : Q :=
  match factores with
  | [] => 1
  | (k, v) :: r => if (k =? s)%Z then v else factores_get r s
  end.

(** [factores.values()] *)
Definition factores_values (factores : list (Z * Q)) : list Q :=
  map snd factores.

Definition diciembre_2025 : Config := {|
  semanas := [49; 50; 51; 52]%Z;
  anio := 2025;
  fechas_inicio := [mkFecha 2025 11 30; mkFecha 2025 12 7;
                    mkFecha 2025 12 14; mkFecha 2025 12 21];
  fechas_fin := [mkFecha 2025 12 6; mkFecha 2025 12 13;
                 mkFecha 2025 12 20; mkFecha 2025 12 27];
  fechas_inventario := [mkFecha 2025 11 29; mkFecha 2025 12 6;
                        mkFecha 2025 12 13; mkFecha 2025 12 20];
  factores_estacionalidad :=
    [(49%Z, 12832 # 10000); (50%Z, 14456 # 10000);
     (51%Z, 12287 # 10000); (52%Z, 13010 # 10000)]
|}.

Definition enero_2026 : Config := {|
  semanas := [53; 1; 2; 3; 4]%Z;
  anio := 2026;
  fechas_inicio := [mkFecha 2025 12 28; mkFecha 2026 1 4; mkFecha 2026 1 11;
                    mkFecha 2026 1 18; mkFecha 2026 1 25];
  fechas_fin := [mkFecha 2026 1 3; mkFecha 2026 1 10; mkFecha 2026 1 17;
                 mkFecha 2026 1 24; mkFecha 2026 1 31];
  fechas_inventario := [mkFecha 2025 12 27; mkFecha 2026 1 3;
                        mkFecha 2026 1 10; mkFecha 2026 1 17;
                        mkFecha 2026 1 24];
  factores_estacionalidad :=
    [(53%Z, 1); (1%Z, 1); (2%Z, 1); (3%Z, 1); (4%Z, 1)]
|}.

(** The value of [datetime.now().isocalendar()]: (ISO year, ISO week number,
    ISO weekday).  The engine keeps component [1]. *)
Record IsoCalendar := mkIso { iso_year : Z; iso_week : Z; iso_weekday : Z }.

(** The snapshot of the inventory ledger joined to a (sku, week) by the
    query: [None] when [Silver.Inventario_Historico] has no row for the
    week's inventory date (LEFT JOIN), [Some v] with the summed stock
    otherwise.  The column handed to the engine is
    [COALESCE(inv_s.inventario_inicial, 0)]. *)
Definition Snapshot := option Q.

Definition coalesce_inventario (s : Snapshot) : Q :=
  match s with Some v => v | None => 0 end.

(** One row of the input data frame (the columns the engine reads). *)
Record Fila := mkFila {
  sku : string;
  descripcion : string;
  semana_num : Z;
  inventario_inicial : Q;
  arribos_esperados : Q;
  forecast_b2b : Q;
  ventas_reales : Q;
  cupo_mensual_total : Q;
  cupo_mensual_canal : Q;
  Channel : string;
  peso_canal : Q
}.

(** One entry of [canales_data]. *)
Record CanalInfo := mkCanalInfo {
  cupo_mensual : Q;
  cupos_semanales : list (Z * Q);
  ci_peso_canal : Q;
  bolsa_disponible : Q
}.

(** One entry of [asignaciones_semana], as appended inside the channel
    loop. *)
Record Asignacion := mkAsignacion {
  a_sku : string;
  a_descripcion : string;
  a_semana : Z;
  a_canal : string;
  a_inventario_inicial : Q;
  a_arribos_esperados : Q;
  a_forecast_b2b : Q;
  a_inventario_fisico : Q;
  a_cupo_mensual_total : Q;
  a_cupo_mensual_canal : Q;
  a_cupo_canal_restante : Q;
  a_cupo_semanal_teorico_canal : Z;
  a_asignacion_original : Z;
  a_redistribucion_recibida : Z;
  a_fuente_redistribucion : option string;
  a_asignacion_canal : Z;
  a_ventas_reales : Q;
  a_ventas_reales_informativas : Q;
  a_peso_canal : Q
}.

(** One row of the result: the entry completed with the three weekly totals
    that are added to it after the channel loop. *)
Record Resultado := mkResultado {
  base : Asignacion;
  asignacion_semana : Z;
  ventas_totales_semana : Q;
  ventas_totales_informativas : Q
}.

(** The loop-carried variables of one SKU's pass. *)
Record Estado := mkEstado {
  canales_data : list (string * CanalInfo);
  inventario_disponible_semana_anterior : Q;
  asignaciones_acumuladas : Z
}.

(** What the final validation prints for one SKU. *)
Inductive Mensaje :=
| WARNING (m_sku : string) (total_asignado cupo diferencia : Q)
| OK (m_sku : string) (total_asignado total_vendido cupo restante : Q).

(* ================================================================== *)
(** ** The sequential allocation engine *)

Module Motor.

(** [df[df[col] == v]] for the two masks the engine uses. *)
Definition filas_de_semana (filas : list Fila) (s : Z) : list Fila :=
  filter (fun f => (semana_num f =? s)%Z) filas.

Definition filas_de_canal (filas : list Fila) (canal : string) : list Fila :=
  filter (fun f => String.eqb (Channel f) canal) filas.

Section PorSku.
Variable config : Config.
Variable semana_actual : Z.
Variable sku_id : string.
Variable grupo_sku : list Fila.

Definition factores : list (Z * Q) := factores_estacionalidad config.
Definition suma_factores : Q := suma (factores_values factores).

(** *** Preparation of [canales_data] *)

Definition cupos_semanales_de (cupo_mensual_canal : Q) : list (Z * Q) :=
  map (fun s =>
         let factor := factores_get factores s in
         let proporcion :=
           if Qltb 0 suma_factores then factor / suma_factores
           else 25 # 100 in
         (s, cupo_mensual_canal * proporcion))
      (semanas config).

(** Body of [for canal in grupo_sku['Channel'].unique()].  [datos_canal]
    cannot be empty, the channel being taken from the group itself. *)
Definition preparar_canal
    (acc : list (string * CanalInfo) * Q) (canal : string)
    : list (string * CanalInfo) * Q :=
  match filas_de_canal grupo_sku canal with
  | [] => acc
  | fila0 :: _ =>
      let cupo := cupo_mensual_canal fila0 in
      (fst acc ++ [(canal,
                    {| cupo_mensual := cupo;
                       cupos_semanales := cupos_semanales_de cupo;
                       ci_peso_canal := peso_canal fila0;
                       bolsa_disponible := cupo |})],
       snd acc + cupo)
  end.

(** [(canales_data, cupo_mensual_total_sku)] before the week loop. *)
Definition preparar_canales : list (string * CanalInfo) * Q :=
  fold_left preparar_canal (unique (map Channel grupo_sku)) ([], 0).

Definition cupo_mensual_total_sku : Q := snd preparar_canales.

Definition estado_inicial : Estado :=
  {| canales_data := fst preparar_canales;
     inventario_disponible_semana_anterior := 0;
     asignaciones_acumuladas := 0 |}.

(** *** One week *)

(** A week is closed when its number is below the current ISO week. *)
Definition semana_cerrada (s : Z) : bool := (s <? semana_actual)%Z.

Definition inventario_inicial_real (inv_inicial_db anterior : Q) : Q :=
  if Qltb 0 inv_inicial_db then inv_inicial_db else anterior.

Definition inventario_fisico_de (inicial_real arribos forecast : Q) : Q :=
  Qmax 0 (inicial_real + arribos - forecast).

Definition ventas_reales_pasadas (s : Z) : Q :=
  fold_left
    (fun acc s_pasada =>
       if ((s_pasada <? s) && (s_pasada <? semana_actual))%Z then
         match filas_de_semana grupo_sku s_pasada with
         | [] => acc
         | datos_s_pasada => acc + suma (map ventas_reales datos_s_pasada)
         end
       else acc)
    (semanas config) 0.

Definition inventario_disponible_mes (st : Estado) (s : Z) : Q :=
  cupo_mensual_total_sku - ventas_reales_pasadas s
  - inject_Z (asignaciones_acumuladas st).

Definition semanas_restantes (s : Z) : list Z :=
  filter (fun s' => (s <=? s')%Z) (semanas config).

Definition suma_factores_restantes (s : Z) : Q :=
  suma (map (factores_get factores) (semanas_restantes s)).

Definition proporcion_semana (s : Z) : Q :=
  if Qltb 0 (suma_factores_restantes s)
  then factores_get factores s / suma_factores_restantes s
  else 0.

Definition inventario_teorico_semana (st : Estado) (s : Z) : Q :=
  inventario_disponible_mes st s * proporcion_semana s.

Definition suma_bolsas (cd : list (string * CanalInfo)) : Q :=
  suma (map bolsa_disponible
            (filter (fun ci => Qltb 0 (bolsa_disponible ci)) (map snd cd))).

Definition inventario_semanal_total
    (st : Estado) (s : Z) (inventario_fisico : Q) : Q :=
  if (semana_actual <=? s)%Z then inventario_teorico_semana st s
  else Qmin (Qmin inventario_fisico (inventario_teorico_semana st s))
            (suma_bolsas (canales_data st)).

(** Sales used in the distribution arithmetic: the recorded ones for a
    closed week, 0 otherwise. *)
Definition ventas_para_calculo (s : Z) (ventas_reales_bd : Q) : Q :=
  if semana_cerrada s then ventas_reales_bd else 0.

Definition factor_canal (sb bolsa : Q) : Q :=
  if Qltb 0 sb then bolsa / sb else 0.

Definition asignacion_de (total sb bolsa : Q) : Z :=
  py_round (Qmin (total * factor_canal sb bolsa) bolsa).

Definition bolsa_tras_ventas (bolsa ventas_reales_canal : Q) : Q :=
  Qmax 0 (bolsa - ventas_reales_canal).

(** Body of [for canal in canales_data.keys()]: the updated entry and the
    row appended to [asignaciones_semana], if any. *)
Definition procesar_canal
    (s : Z) (datos_semana : list Fila)
    (inicial_real arribos forecast fisico total sb : Q)
    (entrada : string * CanalInfo)
    : (string * CanalInfo) * option Asignacion :=
  let (canal, canal_info) := entrada in
  match filas_de_canal datos_semana canal with
  | [] => (entrada, None)
  | row_canal :: _ =>
      let ventas_reales_bd := ventas_reales row_canal in
      let ventas_reales_canal := ventas_para_calculo s ventas_reales_bd in
      let asignacion_canal :=
        asignacion_de total sb (bolsa_disponible canal_info) in
      let bolsa' :=
        bolsa_tras_ventas (bolsa_disponible canal_info)
                          ventas_reales_canal in
      let canal_info' :=
        {| cupo_mensual := cupo_mensual canal_info;
           cupos_semanales := cupos_semanales canal_info;
           ci_peso_canal := ci_peso_canal canal_info;
           bolsa_disponible := bolsa' |} in
      ((canal, canal_info'),
       Some {| a_sku := sku_id;
               a_descripcion := descripcion row_canal;
               a_semana := s;
               a_canal := canal;
               a_inventario_inicial := inicial_real;
               a_arribos_esperados := arribos;
               a_forecast_b2b := forecast;
               a_inventario_fisico := fisico;
               a_cupo_mensual_total := cupo_mensual_total row_canal;
               a_cupo_mensual_canal := cupo_mensual canal_info;
               a_cupo_canal_restante := bolsa';
               a_cupo_semanal_teorico_canal := asignacion_canal;
               a_asignacion_original := asignacion_canal;
               a_redistribucion_recibida := 0;
               a_fuente_redistribucion := None;
               a_asignacion_canal := asignacion_canal;
               a_ventas_reales := ventas_reales_canal;
               a_ventas_reales_informativas := ventas_reales_bd;
               a_peso_canal := ci_peso_canal canal_info |})
  end.

Definition opcion_a_lista {A : Type} (o : option A) : list A :=
  match o with Some a => [a] | None => [] end.

(** Body of [for semana_num in sorted(config['semanas'])]: the new state
    and the rows appended to [resultados]. *)
Definition procesar_semana (st : Estado) (s : Z) : Estado * list Resultado :=
  let datos_semana := filas_de_semana grupo_sku s in
  match datos_semana with
  | [] => (st, [])
  | primera_fila :: _ =>
      let inv_inicial_db := inventario_inicial primera_fila in
      let arribos := arribos_esperados primera_fila in
      let forecast := forecast_b2b primera_fila in
      let inicial_real :=
        inventario_inicial_real
          inv_inicial_db (inventario_disponible_semana_anterior st) in
      let fisico := inventario_fisico_de inicial_real arribos forecast in
      let sb := suma_bolsas (canales_data st) in
      let total := inventario_semanal_total st s fisico in
      let pares :=
        map (procesar_canal s datos_semana inicial_real arribos forecast
                            fisico total sb)
            (canales_data st) in
      let asignaciones_semana :=
        flat_map (fun p => opcion_a_lista (snd p)) pares in
      let asignacion_total_semana :=
        suma_Z (map a_asignacion_canal asignaciones_semana) in
      let ventas_tot := suma (map a_ventas_reales asignaciones_semana) in
      let ventas_inf :=
        suma (map a_ventas_reales_informativas asignaciones_semana) in
      ({| canales_data := map fst pares;
          inventario_disponible_semana_anterior :=
            Qmax 0 (fisico - ventas_tot);
          asignaciones_acumuladas :=
            if (semana_actual <=? s)%Z
            then (asignaciones_acumuladas st + asignacion_total_semana)%Z
            else asignaciones_acumuladas st |},
       map (fun a => {| base := a;
                        asignacion_semana := asignacion_total_semana;
                        ventas_totales_semana := ventas_tot;
                        ventas_totales_informativas := ventas_inf |})
           asignaciones_semana)
  end.

(** The order in which the week loop visits the weeks. *)
Definition orden_de_proceso : list Z := ordenar Z.leb (semanas config).

(** The week loop from a given state over a given list of weeks: final
    state and rows in the order they are appended. *)
Fixpoint recorrer (st : Estado) (ss : list Z) : Estado * list Resultado :=
  match ss with
  | [] => (st, [])
  | s :: resto =>
      let (st1, filas1) := procesar_semana st s in
      let (st2, filas2) := recorrer st1 resto in
      (st2, filas1 ++ filas2)
  end.

Definition procesar_sku : list Resultado :=
  snd (recorrer estado_inicial orden_de_proceso).

(** *** Observation of the loop *)

(** The physical availability of a week, from the first row of the week
    and the state at the start of the iteration. *)
Definition fisico_de_semana (st : Estado) (primera_fila : Fila) : Q :=
  inventario_fisico_de
    (inventario_inicial_real (inventario_inicial primera_fila)
                             (inventario_disponible_semana_anterior st))
    (arribos_esperados primera_fila) (forecast_b2b primera_fila).

(** [canales_data[canal]] *)
Fixpoint buscar_canal (canal : string) (cd : list (string * CanalInfo))
  : option CanalInfo :=
  match cd with
  | [] => None
  | (c, info) :: r =>
      if String.eqb c canal then Some info else buscar_canal canal r
  end.

(** The iterations of the week loop: week, state at the start of the
    iteration, rows appended by it. *)
Fixpoint traza (st : Estado) (ss : list Z)
  : list (Z * Estado * list Resultado) :=
  match ss with
  | [] => []
  | s :: resto =>
      (s, st, snd (procesar_semana st s))
        :: traza (fst (procesar_semana st s)) resto
  end.

Definition traza_sku : list (Z * Estado * list Resultado) :=
  traza estado_inicial orden_de_proceso.

(** How one week may change an entry of [canales_data]: the key and the
    monthly quota stay; the balance stays when the channel has no row in the
    week, and otherwise loses the sales used in the arithmetic, floored
    at 0. *)
Definition entrada_tras (s : Z) (e e' : string * CanalInfo) : Prop :=
  fst e' = fst e /\
  cupo_mensual (snd e') = cupo_mensual (snd e) /\
  (e' = e \/
   exists row resto,
     filas_de_canal (filas_de_semana grupo_sku s) (fst e) = row :: resto /\
     bolsa_disponible (snd e') =
       bolsa_tras_ventas (bolsa_disponible (snd e))
                         (ventas_para_calculo s (ventas_reales row))).

(** The cap of a closed week does not bind: neither the physical
    availability nor the sum of the balances is below the theoretical
    amount.  Open weeks have no cap. *)
Definition semana_sin_tope (st : Estado) (s : Z) : bool :=
  if semana_cerrada s then
    match filas_de_semana grupo_sku s with
    | [] => true
    | primera_fila :: _ =>
        Qle_bool (inventario_teorico_semana st s)
                 (fisico_de_semana st primera_fila)
        && Qle_bool (inventario_teorico_semana st s)
                    (suma_bolsas (canales_data st))
    end
  else true.

Definition sin_tope_fisico : bool :=
  forallb (fun t => semana_sin_tope (snd (fst t)) (fst (fst t))) traza_sku.

(** Units assigned to one channel over all the rows of a plan. *)
Definition asignado_canal (canal : string) (plan : list Resultado) : Z :=
  suma_Z (map (fun r => a_asignacion_canal (base r))
              (filter (fun r => String.eqb (a_canal (base r)) canal) plan)).

End PorSku.

(** *** Final validation *)

Definition filas_resultado_de (res : list Resultado) (k : string)
  : list Resultado :=
  filter (fun r => String.eqb (a_sku (base r)) k) res.

Definition claves_ordenadas (ks : list string) : list string :=
  ordenar String.leb (unique ks).

(** [tolerancia = max(cupo_mensual * 0.01, 10)] *)
Definition tolerancia (cupo : Q) : Q := Qmax (cupo * (1 # 100)) 10.

(** Body of [for _, row in validacion.iterrows()], for the group of rows of
    one SKU (never empty). *)
Definition validar_sku (k : string) (filas : list Resultado) : list Mensaje :=
  match filas with
  | [] => []
  | r0 :: _ =>
      let total_asignado :=
        inject_Z (suma_Z (map (fun r => a_asignacion_canal (base r)) filas)) in
      let total_vendido :=
        suma (map (fun r => a_ventas_reales (base r)) filas) in
      let cupo := a_cupo_mensual_total (base r0) in
      let diferencia_asignacion := Qabs (total_asignado - cupo) in
      let diferencia_ventas := cupo - total_vendido in
      if Qltb (tolerancia cupo) diferencia_asignacion
      then [WARNING k total_asignado cupo diferencia_asignacion]
      else [OK k total_asignado total_vendido cupo diferencia_ventas]
  end.

Definition validar (res : list Resultado) : list Mensaje :=
  flat_map (fun k => validar_sku k (filas_resultado_de res k))
           (claves_ordenadas (map (fun r => a_sku (base r)) res)).

(** *** The whole function *)

Definition semana_actual_de (ahora : IsoCalendar) : Z := iso_week ahora.

Definition grupos_por_sku (df : list Fila) : list (string * list Fila) :=
  map (fun k => (k, filter (fun f => String.eqb (sku f) k) df))
      (claves_ordenadas (map sku df)).

(** [calcular_asignacion_semanal_secuencial(df, config)], with the clock
    reading made explicit: the returned data frame and the lines printed by
    the validation. *)
Definition calcular_asignacion_semanal_secuencial
    (ahora : IsoCalendar) (df : list Fila) (config : Config)
    : list Resultado * list Mensaje :=
  let resultados :=
    flat_map (fun g => procesar_sku config (semana_actual_de ahora)
                                    (fst g) (snd g))
             (grupos_por_sku df) in
  (resultados, validar resultados).

End Motor.
Import Motor.

(* ================================================================== *)
(** ** The query that feeds the engine *)

Module Consulta.

(** A row of the final SELECT of [get_distribucion_semanal_inventario]:
    the inventory column is the coalesced snapshot. *)
Definition fila_de_consulta (k desc : string) (s : Z) (snap : Snapshot)
    (arribos forecast ventas cupo_total cupo_canal : Q) (canal : string)
    (peso : Q) : Fila :=
  {| sku := k; descripcion := desc; semana_num := s;
     inventario_inicial := coalesce_inventario snap;
     arribos_esperados := arribos; forecast_b2b := forecast;
     ventas_reales := ventas; cupo_mensual_total := cupo_total;
     cupo_mensual_canal := cupo_canal; Channel := canal;
     peso_canal := peso |}.

(** Physical availability of a week as the engine resolves it from the
    week's snapshot and the balance carried from the previous iteration. *)
Definition disponibilidad_fisica
    (snap : Snapshot) (arribos forecast anterior : Q) : Q :=
  inventario_fisico_de
    (inventario_inicial_real (coalesce_inventario snap) anterior)
    arribos forecast.

End Consulta.
Import Consulta.

(* ================================================================== *)
(** ** Calendar order of the configured weeks *)

Module Calendario.

(** [config['fechas_inicio'][config['semanas'].index(s)]] *)
Fixpoint fecha_de (ss : list Z) (fs : list Fecha) (s : Z) : option Fecha :=
  match ss, fs with
  | s0 :: ss', f0 :: fs' => if (s0 =? s)%Z then Some f0 else fecha_de ss' fs' s
  | _, _ => None
  end.

Definition fecha_inicio_de (config : Config) (s : Z) : option Fecha :=
  fecha_de (semanas config) (fechas_inicio config) s.

Fixpoint fechas_crecientes (fs : list (option Fecha)) : bool :=
  match fs with
  | Some a :: ((Some b :: _) as resto) => fecha_ltb a b && fechas_crecientes resto
  | [Some _] => true
  | [] => true
  | _ => false
  end.

(** The weeks of [orden] are visited by increasing start date. *)
Definition orden_cronologico (config : Config) (orden : list Z) : bool :=
  fechas_crecientes (map (fecha_inicio_de config) orden).

End Calendario.
Import Calendario.

(* ================================================================== *)
(** ** Concrete inputs *)

Module Escenarios.

Local Open Scope string_scope.

(** Enero 2026, two channels with quotas 900 and 300, ample stock measured
    every week, no sales at all. *)
Definition df_sin_ventas : list Fila :=
  flat_map
    (fun s =>
       [fila_de_consulta "SKU-1" "producto" s (Some 5000) 0 0 0 1200 900
                         "A" (3 # 4);
        fila_de_consulta "SKU-1" "producto" s (Some 5000) 0 0 0 1200 300
                         "B" (1 # 4)])
    [53; 1; 2; 3; 4]%Z.

(** Enero 2026, one channel with quota 10 that sold 9.25 units in week 1. *)
Definition df_fraccion : list Fila :=
  map (fun s =>
         fila_de_consulta "SKU-1" "producto" s (Some 100) 0 0
                          (if (s =? 1)%Z then 37 # 4 else 0) 10 10 "A" 1)
      [53; 1; 2; 3; 4]%Z.

(** Enero 2026, two channels with quota 500 each; channel A sold 200 units
    in week 1. *)
Definition df_desbalance : list Fila :=
  flat_map
    (fun s =>
       [fila_de_consulta "SKU-1" "producto" s (Some 1000) 0 0
                         (if (s =? 1)%Z then 200 else 0) 1000 500
                         "A" (1 # 2);
        fila_de_consulta "SKU-1" "producto" s (Some 1000) 0 0 0 1000 500
                         "B" (1 # 2)])
    [53; 1; 2; 3; 4]%Z.

(** Diciembre 2025, one channel; the ledger measured 100 units for week 49
    and 0 units for week 50, and has no measure for weeks 51 and 52. *)
Definition df_medida_cero : list Fila :=
  map (fun s =>
         fila_de_consulta "SKU-1" "producto" s
           (if (s =? 49)%Z then Some 100
            else if (s =? 50)%Z then Some 0 else None)
           0 0 0 40 40 "A" 1)
      [49; 50; 51; 52]%Z.

(** Enero 2026, quotas 600 and 400; channel A sold its whole quota in
    week 1. *)
Definition df_agotado : list Fila :=
  flat_map
    (fun s =>
       [fila_de_consulta "SKU-1" "producto" s (Some 5000) 0 0
                         (if (s =? 1)%Z then 600 else 0) 1000 600
                         "A" (6 # 10);
        fila_de_consulta "SKU-1" "producto" s (Some 5000) 0 0 0 1000 400
                         "B" (4 # 10)])
    [53; 1; 2; 3; 4]%Z.

(** Enero 2026, quotas 600 and 400; channel A sold 2000 units in week 1,
    more than the whole monthly quota of the SKU. *)
Definition df_exceso : list Fila :=
  flat_map
    (fun s =>
       [fila_de_consulta "SKU-1" "producto" s (Some 5000) 0 0
                         (if (s =? 1)%Z then 2000 else 0) 1000 600
                         "A" (6 # 10);
        fila_de_consulta "SKU-1" "producto" s (Some 5000) 0 0 0 1000 400
                         "B" (4 # 10)])
    [53; 1; 2; 3; 4]%Z.

(** The state of the pass over [df_fraccion], read in ISO week 2, at the
    start of the iteration of week 53. *)
Definition estado_fraccion_53 : Estado :=
  Eval vm_compute in
    fst (recorrer enero_2026 2 "SKU-1" df_fraccion
                  (estado_inicial enero_2026 df_fraccion) [1; 2; 3; 4]%Z).

(** Clock readings. *)
Definition semana_2_de_2026 : IsoCalendar := mkIso 2026 2 3.
Definition semana_6_de_2026 : IsoCalendar := mkIso 2026 6 3.
Definition semana_51_de_2025 : IsoCalendar := mkIso 2025 51 3.
Definition semana_49_de_2025 : IsoCalendar := mkIso 2025 49 1.

End Escenarios.

(* ================================================================== *)
(** ** Rounded proportional split *)

Module Redondeo.

(** Length of a list as a rational. *)
Definition largo {A : Type} (l : list A) : Q :=
  inject_Z (Z.of_nat (List.length l)).

(** Units handed out in a week whose total to distribute is [total], when
    every channel's balance is its quota (the quotas are [qs], their sum
    [T]) and no channel is capped by its balance: each channel gets
    [round(total * (q / T))]. *)
Definition repartido (T : Q) (qs : list Q) (total : Q) : Z :=
  suma_Z (map (fun q => py_round (total * (q / T))) qs).

(** Bound on the distance between what a channel is assigned over a month
    of [m] open weeks and its quota, for [n] channels and a channel whose
    quota is the fraction [w] of the total: half a unit per week for the
    channel's own roundings, and [w] times half a unit per channel for each
    of the [m - 1] weeks whose roundings feed the next week's pool. *)
Definition cota_redondeo (m n w : Q) : Q :=
  m * (1 # 2) + w * ((m - 1) * (n * (1 # 2))).

End Redondeo.
Import Redondeo.

(* ================================================================== *)
(** ** Proof automation *)

(** Decides a property of every row of a concrete data frame. *)
Ltac en_cada_fila :=
  let f := fresh "f" in
  let H := fresh "H" in
  intros f H; vm_compute in H;
  repeat (destruct H as [<-|H]; [vm_compute; try discriminate; try reflexivity|]);
  try destruct H.

(* ================================================================== *)
(** * Properties *)

(** ** Facts about the numeric layer *)

Lemma Qltb_true x y : Qltb x y = true <-> x < y.
Proof.
  unfold Qltb. rewrite negb_true_iff. split; intro H.
  - apply Qnot_le_lt. intro L. apply Qle_bool_iff in L. congruence.
  - destruct (Qle_bool y x) eqn:E; auto. apply Qle_bool_iff in E. lra.
Qed.

Lemma Qltb_false x y : Qltb x y = false <-> y <= x.
Proof.
  unfold Qltb. rewrite negb_false_iff. apply Qle_bool_iff.
Qed.

#[global] Instance py_round_comp : Proper (Qeq ==> eq) py_round.
Proof.
  intros x y E. unfold py_round.
  assert (F : Qfloor x = Qfloor y) by (now rewrite E).
  rewrite F. rewrite E. reflexivity.
Qed.

Lemma py_round_cases x :
  let f := Qfloor x in
  (x - inject_Z f < 1#2 /\ py_round x = f) \/
  (1#2 < x - inject_Z f /\ py_round x = (f + 1)%Z) \/
  (x - inject_Z f == 1#2 /\ py_round x = if Z.even f then f else (f + 1)%Z).
Proof.
  intro f. unfold py_round. fold f.
  destruct (Qcompare_spec (x - inject_Z f) (1#2)) as [E|L|G]; auto.
Qed.

Lemma inject_Z_succ z : inject_Z (z + 1) == inject_Z z + 1.
Proof. rewrite inject_Z_plus. reflexivity. Qed.

Lemma floor_bounds x : inject_Z (Qfloor x) <= x /\ x < inject_Z (Qfloor x) + 1.
Proof.
  split; [apply Qfloor_le|].
  generalize (Qlt_floor x). rewrite inject_Z_succ. auto.
Qed.

Lemma py_round_error x :
  x - (1#2) <= inject_Z (py_round x) /\ inject_Z (py_round x) <= x + (1#2).
Proof.
  destruct (floor_bounds x) as [L U].
  destruct (py_round_cases x) as [[H E]|[[H E]|[H E]]]; rewrite E.
  - split; lra.
  - rewrite inject_Z_succ. split; lra.
  - destruct (Z.even (Qfloor x)); [|rewrite inject_Z_succ]; split; lra.
Qed.

Lemma py_round_inject z : py_round (inject_Z z) = z.
Proof.
  unfold py_round. rewrite Qfloor_Z.
  destruct (Qcompare_spec (inject_Z z - inject_Z z) (1#2)) as [E|L|G]; auto; lra.
Qed.

Lemma inject_Z_lt_inv a b : inject_Z a < inject_Z b + 1 -> (a <= b)%Z.
Proof.
  intro H. rewrite <- inject_Z_succ in H. rewrite <- Zlt_Qlt in H. lia.
Qed.

Lemma py_round_mono x y : x <= y -> (py_round x <= py_round y)%Z.
Proof.
  intro H.
  pose proof (Qfloor_resp_le _ _ H) as F.
  destruct (floor_bounds x) as [Lx Ux]. destruct (floor_bounds y) as [Ly Uy].
  destruct (Z.eq_dec (Qfloor x) (Qfloor y)) as [E|N].
  - destruct (py_round_cases x) as [[Hx Ex]|[[Hx Ex]|[Hx Ex]]];
    destruct (py_round_cases y) as [[Hy Ey]|[[Hy Ey]|[Hy Ey]]];
    rewrite Ex, Ey; rewrite <- ?E in *;
    try (destruct (Z.even (Qfloor x))); try lia; exfalso; lra.
  - assert (Qfloor x + 1 <= Qfloor y)%Z by lia.
    assert (py_round x <= Qfloor x + 1)%Z.
    { destruct (py_round_cases x) as [[Hx Ex]|[[Hx Ex]|[Hx Ex]]]; rewrite Ex; try lia.
      destruct (Z.even (Qfloor x)); lia. }
    assert (Qfloor y <= py_round y)%Z.
    { destruct (py_round_cases y) as [[Hx Ex]|[[Hx Ex]|[Hx Ex]]]; rewrite Ex; try lia.
      destruct (Z.even (Qfloor y)); lia. }
    lia.
Qed.

Lemma py_round_0 : py_round 0 = 0%Z.
Proof. reflexivity. Qed.

Lemma py_round_nonneg x : 0 <= x -> (0 <= py_round x)%Z.
Proof. intro H. apply py_round_mono in H. exact H. Qed.

Lemma py_round_nonpos x : x <= 0 -> (py_round x <= 0)%Z.
Proof. intro H. apply py_round_mono in H. exact H. Qed.

Lemma suma_acc xs : forall a, fold_left Qplus xs a == a + suma xs.
Proof.
  unfold suma. induction xs as [|x xs IH]; intro a; simpl.
  - lra.
  - rewrite IH. rewrite (IH (0 + x)). lra.
Qed.

Lemma suma_cons x xs : suma (x :: xs) == x + suma xs.
Proof. unfold suma at 1. simpl. rewrite suma_acc. lra. Qed.

Lemma suma_nil : suma [] == 0.
Proof. reflexivity. Qed.

Lemma suma_app xs ys : suma (xs ++ ys) == suma xs + suma ys.
Proof.
  induction xs as [|x xs IH]; simpl.
  - unfold suma at 2. simpl. lra.
  - rewrite !suma_cons, IH. lra.
Qed.

Lemma suma_nonneg xs : (forall x, In x xs -> 0 <= x) -> 0 <= suma xs.
Proof.
  induction xs as [|x xs IH]; intro H.
  - unfold suma; simpl; lra.
  - rewrite suma_cons. assert (0 <= x) by (apply H; now left).
    assert (0 <= suma xs) by (apply IH; intros; apply H; now right). lra.
Qed.

Lemma suma_Z_acc xs : forall a, fold_left Z.add xs a = (a + suma_Z xs)%Z.
Proof.
  unfold suma_Z. induction xs as [|x xs IH]; intro a; simpl.
  - lia.
  - rewrite IH. rewrite (IH x). lia.
Qed.

Lemma suma_Z_cons x xs : suma_Z (x :: xs) = (x + suma_Z xs)%Z.
Proof. unfold suma_Z at 1. simpl. rewrite suma_Z_acc. lia. Qed.

Lemma suma_Z_app xs ys : suma_Z (xs ++ ys) = (suma_Z xs + suma_Z ys)%Z.
Proof.
  induction xs as [|x xs IH]; simpl.
  - reflexivity.
  - rewrite !suma_Z_cons, IH. lia.
Qed.

Lemma Qmax_0_nonneg x : 0 <= Qmax 0 x.
Proof. destruct (Q.max_spec 0 x) as [[H E]|[H E]]; rewrite E; lra. Qed.

Lemma Qmax_0_eq x : 0 <= x -> Qmax 0 x == x.
Proof. intro. destruct (Q.max_spec 0 x) as [[H1 E]|[H1 E]]; rewrite E; lra. Qed.

(** ** Facts about the data-frame helpers *)

Lemma unique_aux_In vistos l x :
  In x (unique_aux vistos l) <-> In x l /\ ~ In x vistos.
Proof.
  revert vistos. induction l as [|y l IH]; intro vistos; simpl.
  - tauto.
  - destruct (existsb (String.eqb y) vistos) eqn:E.
    + rewrite IH. apply existsb_exists in E. destruct E as [z [Hz Ez]].
      apply String.eqb_eq in Ez. subst z.
      split; [tauto|]. intros [[->|H] N]; [contradiction|tauto].
    + assert (Ny : ~ In y vistos).
      { intro H. assert (existsb (String.eqb y) vistos = true).
        { apply existsb_exists. exists y. split; auto. apply String.eqb_refl. }
        congruence. }
      simpl. rewrite IH. simpl. split.
      * intros [->|[H N]]; [tauto|]. split; [tauto|]. intro; apply N; tauto.
      * intros [[->|H] N]; [tauto|].
        destruct (string_dec y x) as [->|D]; [tauto|]. right. split; auto.
        intros [?|?]; [congruence|contradiction].
Qed.

Lemma unique_In l x : In x (unique l) <-> In x l.
Proof. unfold unique. rewrite unique_aux_In. simpl. tauto. Qed.

Lemma unique_aux_NoDup l : forall vistos, NoDup (unique_aux vistos l).
Proof.
  induction l as [|y l IH]; intro vistos; simpl.
  - constructor.
  - destruct (existsb (String.eqb y) vistos); auto.
    constructor; auto. rewrite unique_aux_In. simpl. tauto.
Qed.

Lemma unique_NoDup l : NoDup (unique l).
Proof. apply unique_aux_NoDup. Qed.

Section HechosSemana.
Variable config : Config.
Variable semana_actual : Z.
Variable sku_id : string.
Variable grupo_sku : list Fila.

Local Abbreviation paso :=
  (procesar_semana config semana_actual sku_id grupo_sku).
Local Abbreviation total_de :=
  (inventario_semanal_total config semana_actual grupo_sku).
Local Abbreviation datos_de := (filas_de_semana grupo_sku).
Local Abbreviation ventas_calc := (ventas_para_calculo semana_actual).

Lemma procesar_semana_sin_datos st s :
  datos_de s = [] -> paso st s = (st, []).
Proof.
  intro H. unfold procesar_semana. rewrite H. reflexivity.
Qed.

(** The channel loop body at the values the week loop passes to it. *)
Local Abbreviation canal_en st s primera :=
  (procesar_canal semana_actual sku_id s (datos_de s)
     (inventario_inicial_real (inventario_inicial primera)
        (inventario_disponible_semana_anterior st))
     (arribos_esperados primera) (forecast_b2b primera)
     (fisico_de_semana st primera)
     (total_de st s (fisico_de_semana st primera))
     (suma_bolsas (canales_data st))).

Lemma procesar_semana_canales st s primera resto :
  datos_de s = primera :: resto ->
  canales_data (fst (paso st s)) =
    map (fun e => fst (canal_en st s primera e)) (canales_data st).
Proof.
  intro H. unfold procesar_semana in *.
  rewrite H. simpl. rewrite map_map. reflexivity.
Qed.

Lemma procesar_semana_bases st s primera resto :
  datos_de s = primera :: resto ->
  map base (snd (paso st s)) =
    flat_map (fun e => opcion_a_lista (snd (canal_en st s primera e)))
             (canales_data st).
Proof.
  intro H. unfold procesar_semana in *.
  rewrite H. simpl. rewrite map_map. simpl. rewrite map_id.
  rewrite flat_map_concat_map, map_map, <- flat_map_concat_map. reflexivity.
Qed.

(** Every row appended in week [s] comes from one entry of
    [canales_data] that has a row in the week. *)
Lemma procesar_semana_fila st s r :
  In r (snd (paso st s)) ->
  exists primera resto canal info row resto',
    datos_de s = primera :: resto /\
    In (canal, info) (canales_data st) /\
    filas_de_canal (datos_de s) canal = row :: resto' /\
    a_canal (base r) = canal /\
    a_semana (base r) = s /\
    a_sku (base r) = sku_id /\
    a_inventario_fisico (base r) = fisico_de_semana st primera /\
    a_asignacion_canal (base r) =
      asignacion_de (total_de st s (fisico_de_semana st primera))
                    (suma_bolsas (canales_data st)) (bolsa_disponible info) /\
    a_ventas_reales (base r) = ventas_calc s (ventas_reales row) /\
    a_cupo_canal_restante (base r) =
      bolsa_tras_ventas (bolsa_disponible info)
                        (ventas_calc s (ventas_reales row)).
Proof.
  intro H. destruct (datos_de s) as [|primera resto] eqn:E.
  - rewrite (procesar_semana_sin_datos st s E) in H. destruct H.
  - apply (in_map base) in H.
    rewrite (procesar_semana_bases st s primera resto E) in H.
    apply in_flat_map in H. destruct H as [[canal info] [Hin Ha]].
    exists primera, resto, canal, info.
    unfold procesar_canal in Ha. rewrite E in Ha.
    destruct (filas_de_canal (primera :: resto) canal) as [|row resto'] eqn:F;
      simpl in Ha; [contradiction|].
    destruct Ha as [Ha|[]]. exists row, resto'. rewrite <- Ha. simpl.
    repeat split; auto.
Qed.

Lemma entrada_tras_refl s e : entrada_tras semana_actual grupo_sku s e e.
Proof. unfold entrada_tras. auto. Qed.

Lemma procesar_semana_entradas st s :
  Forall2 (entrada_tras semana_actual grupo_sku s)
          (canales_data st) (canales_data (fst (paso st s))).
Proof.
  destruct (datos_de s) as [|primera resto] eqn:E.
  - rewrite (procesar_semana_sin_datos st s E). simpl.
    induction (canales_data st); constructor; auto using entrada_tras_refl.
  - rewrite (procesar_semana_canales st s primera resto E).
    generalize (total_de st s (fisico_de_semana st primera)).
    generalize (suma_bolsas (canales_data st)).
    intros sb total.
    induction (canales_data st) as [|[canal info] cd IH]; simpl;
      constructor; [|exact IH].
    unfold procesar_canal.
    destruct (filas_de_canal (datos_de s) canal) as [|row resto'] eqn:F;
      simpl.
    + apply entrada_tras_refl.
    + unfold entrada_tras. simpl. repeat split; auto.
      right. exists row, resto'. auto.
Qed.

End HechosSemana.

(** ** Facts about the week loop *)

Section HechosRecorrido.
Variable config : Config.
Variable semana_actual : Z.
Variable sku_id : string.
Variable grupo_sku : list Fila.

Local Abbreviation paso :=
  (procesar_semana config semana_actual sku_id grupo_sku).
Local Abbreviation recorrido :=
  (recorrer config semana_actual sku_id grupo_sku).
Local Abbreviation traza_de :=
  (traza config semana_actual sku_id grupo_sku).
Local Abbreviation datos_de := (filas_de_semana grupo_sku).
Local Abbreviation ventas_calc := (ventas_para_calculo semana_actual).

Lemma buscar_canal_In c cd i :
  buscar_canal c cd = Some i -> In (c, i) cd.
Proof.
  induction cd as [|[k j] cd IH]; simpl; [discriminate|].
  destruct (String.eqb k c) eqn:E.
  - apply String.eqb_eq in E. intros [= ->]. subst. now left.
  - intro H. right. auto.
Qed.

Lemma In_buscar_canal c cd i :
  NoDup (map fst cd) -> In (c, i) cd -> buscar_canal c cd = Some i.
Proof.
  induction cd as [|[k j] cd IH]; simpl; [tauto|].
  intros N [H|H].
  - injection H as -> ->. now rewrite String.eqb_refl.
  - inversion N as [|? ? Nk Nr]; subst.
    destruct (String.eqb k c) eqn:E.
    + apply String.eqb_eq in E. subst k. exfalso. apply Nk.
      apply (in_map fst) in H. exact H.
    + auto.
Qed.


Lemma procesar_semana_claves st s :
  map fst (canales_data (fst (paso st s))) = map fst (canales_data st).
Proof.
  pose proof (procesar_semana_entradas config semana_actual sku_id grupo_sku st s) as F.
  induction F as [|e e' cd cd' Hr F IH]; simpl; [reflexivity|].
  destruct Hr as [-> _]. now rewrite IH.
Qed.


Lemma procesar_semana_no_negativas st s :
  Forall (fun e => 0 <= bolsa_disponible (snd e)) (canales_data st) ->
  Forall (fun e => 0 <= bolsa_disponible (snd e))
         (canales_data (fst (paso st s))).
Proof.
  pose proof (procesar_semana_entradas config semana_actual sku_id grupo_sku st s) as F.
  induction F as [|e e' cd cd' Hr F IH]; intro H; constructor.
  - inversion H; subst. destruct Hr as [_ [_ [->|[row [resto [_ Hb]]]]]]; auto.
    rewrite Hb. apply Qmax_0_nonneg.
  - inversion H; subst. auto.
Qed.

(** An invariant of the loop body holds at the start of every iteration. *)
Lemma traza_invariante (P : Estado -> Prop) :
  (forall st s, P st -> P (fst (paso st s))) ->
  forall ss st, P st ->
  forall s st' filas, In (s, st', filas) (traza_de st ss) ->
    P st' /\ filas = snd (paso st' s).
Proof.
  intro Hp. induction ss as [|s0 ss IH]; intros st H s st' filas Hin; simpl in Hin.
  - destruct Hin.
  - destruct Hin as [Heq|Hin].
    + injection Heq as <- <- <-. split; [exact H|reflexivity].
    + apply (IH (fst (paso st s0))); [apply Hp; exact H|exact Hin].
Qed.

Lemma recorrer_traza ss : forall st,
  snd (recorrido st ss) = flat_map snd (traza_de st ss).
Proof.
  induction ss as [|s ss IH]; intro st; simpl; [reflexivity|].
  destruct (paso st s) as [st1 f1] eqn:E1. simpl.
  specialize (IH st1).
  destruct (recorrido st1 ss) as [st2 f2]. simpl in *. now rewrite IH.
Qed.

Lemma recorrer_fila ss st r :
  In r (snd (recorrido st ss)) ->
  exists s st' filas, In (s, st', filas) (traza_de st ss) /\ In r filas.
Proof.
  rewrite recorrer_traza. intro H. apply in_flat_map in H.
  destruct H as [[[s st'] filas] [Hin Hr]]. eauto.
Qed.

Lemma recorrer_cons st s ss :
  recorrido st (s :: ss) =
    (fst (recorrido (fst (paso st s)) ss),
     snd (paso st s) ++ snd (recorrido (fst (paso st s)) ss)).
Proof.
  simpl. destruct (paso st s) as [st1 f1]. simpl.
  destruct (recorrido st1 ss) as [st2 f2]. reflexivity.
Qed.

(** *** The initial state *)

Local Abbreviation preparar :=
  (preparar_canal config grupo_sku).

Lemma filas_de_canal_no_vacia c :
  In c (map Channel grupo_sku) -> filas_de_canal grupo_sku c <> [].
Proof.
  intros H E. apply in_map_iff in H. destruct H as [f [Hc Hf]].
  assert (In f (filas_de_canal grupo_sku c)) as Hin.
  { apply filter_In. split; auto. apply String.eqb_eq. exact Hc. }
  rewrite E in Hin. destruct Hin.
Qed.

Lemma preparar_fold_claves cs : forall acc,
  (forall c, In c cs -> In c (map Channel grupo_sku)) ->
  map fst (fst (fold_left preparar cs acc)) = map fst (fst acc) ++ cs.
Proof.
  induction cs as [|c cs IH]; intros acc H; simpl.
  - now rewrite app_nil_r.
  - rewrite IH by (intros; apply H; now right).
    unfold preparar_canal.
    destruct (filas_de_canal grupo_sku c) as [|f0 r] eqn:E.
    + exfalso. apply (filas_de_canal_no_vacia c); auto. apply H. now left.
    + simpl. rewrite map_app. simpl. rewrite <- app_assoc. reflexivity.
Qed.

Lemma preparar_fold_entradas (P : string * CanalInfo -> Prop) cs :
  (forall c f0 r, filas_de_canal grupo_sku c = f0 :: r ->
     P (c, {| cupo_mensual := cupo_mensual_canal f0;
              cupos_semanales := cupos_semanales_de config (cupo_mensual_canal f0);
              ci_peso_canal := peso_canal f0;
              bolsa_disponible := cupo_mensual_canal f0 |})) ->
  forall acc, Forall P (fst acc) -> Forall P (fst (fold_left preparar cs acc)).
Proof.
  intro Hp. induction cs as [|c cs IH]; intros acc H; simpl; auto.
  apply IH. unfold preparar_canal.
  destruct (filas_de_canal grupo_sku c) as [|f0 r] eqn:E; auto.
  simpl. apply Forall_app. split; [exact H|].
  constructor; [|constructor]. apply (Hp c f0 r E).
Qed.

Lemma preparar_fold_total cs : forall acc,
  snd acc == suma (map (fun e => cupo_mensual (snd e)) (fst acc)) ->
  snd (fold_left preparar cs acc) ==
    suma (map (fun e => cupo_mensual (snd e)) (fst (fold_left preparar cs acc))).
Proof.
  induction cs as [|c cs IH]; intros acc H; simpl; auto.
  apply IH. unfold preparar_canal.
  destruct (filas_de_canal grupo_sku c) as [|f0 r] eqn:E; auto.
  simpl. rewrite map_app, suma_app. simpl. rewrite suma_cons, H.
  unfold suma at 3. simpl. lra.
Qed.

Local Abbreviation inicial := (estado_inicial config grupo_sku).

Lemma estado_inicial_claves :
  map fst (canales_data inicial) = unique (map Channel grupo_sku).
Proof.
  unfold estado_inicial, preparar_canales. simpl.
  rewrite preparar_fold_claves; [reflexivity|].
  intros c H. now apply unique_In.
Qed.

Lemma estado_inicial_entradas :
  Forall (fun e => exists f0 r,
            filas_de_canal grupo_sku (fst e) = f0 :: r /\
            cupo_mensual (snd e) = cupo_mensual_canal f0 /\
            bolsa_disponible (snd e) = cupo_mensual_canal f0)
         (canales_data inicial).
Proof.
  unfold estado_inicial, preparar_canales. simpl.
  apply preparar_fold_entradas; [|constructor].
  intros c f0 r E. simpl. eauto.
Qed.

Lemma cupo_mensual_total_sku_suma :
  cupo_mensual_total_sku config grupo_sku ==
    suma (map (fun e => cupo_mensual (snd e)) (canales_data inicial)).
Proof.
  unfold cupo_mensual_total_sku, estado_inicial, preparar_canales. simpl.
  apply preparar_fold_total. reflexivity.
Qed.

Lemma estado_inicial_no_negativas :
  (forall f, In f grupo_sku -> 0 <= cupo_mensual_canal f) ->
  Forall (fun e => 0 <= bolsa_disponible (snd e)) (canales_data inicial).
Proof.
  intro H. eapply Forall_impl; [|apply estado_inicial_entradas].
  intros e [f0 [r [E [_ ->]]]]. apply H.
  assert (In f0 (filas_de_canal grupo_sku (fst e))) as Hin
    by (rewrite E; now left).
  apply filter_In in Hin. tauto.
Qed.

End HechosRecorrido.

(** ** Facts about the arithmetic of one channel *)

Lemma Forall2_In_der {A B} (R : A -> B -> Prop) l l' y :
  Forall2 R l l' -> In y l' -> exists x, In x l /\ R x y.
Proof.
  induction 1 as [|a b l l' Hr F IH]; simpl; [tauto|].
  intros [<-|H]; [eauto|]. destruct (IH H) as [x [Hx Rx]]. eauto.
Qed.

Lemma Qmin_cases x y : (x <= y /\ Qmin x y == x) \/ (y <= x /\ Qmin x y == y).
Proof.
  destruct (Q.min_spec x y) as [[H E]|[H E]]; [left|right]; split; auto; lra.
Qed.

Lemma Qmin_le_r x y : Qmin x y <= y.
Proof. destruct (Qmin_cases x y) as [[H E]|[H E]]; rewrite E; lra. Qed.

Lemma Qmin_le_l x y : Qmin x y <= x.
Proof. destruct (Qmin_cases x y) as [[H E]|[H E]]; rewrite E; lra. Qed.

Lemma Qmin_glb x y z : z <= x -> z <= y -> z <= Qmin x y.
Proof. intros. destruct (Qmin_cases x y) as [[H1 E]|[H1 E]]; rewrite E; lra. Qed.

Lemma bolsa_tras_ventas_no_negativa b v : 0 <= bolsa_tras_ventas b v.
Proof. apply Qmax_0_nonneg. Qed.


Lemma bolsa_tras_ventas_agotada b v : b <= v -> bolsa_tras_ventas b v == 0.
Proof.
  intros H. unfold bolsa_tras_ventas.
  destruct (Q.max_spec 0 (b - v)) as [[H1 E]|[H1 E]]; rewrite E; lra.
Qed.

Lemma factor_canal_no_negativo sb b : 0 <= b -> 0 <= factor_canal sb b.
Proof.
  intro H. unfold factor_canal. destruct (Qltb 0 sb) eqn:E; [|lra].
  apply Qltb_true in E. unfold Qdiv. apply Qmult_le_0_compat; auto.
  apply Qlt_le_weak. apply Qinv_lt_0_compat. exact E.
Qed.

Lemma factor_canal_cero sb b : b == 0 -> factor_canal sb b == 0.
Proof.
  intro H. unfold factor_canal. destruct (Qltb 0 sb); [|reflexivity].
  rewrite H. unfold Qdiv. lra.
Qed.

Lemma asignacion_de_cota total sb b :
  (asignacion_de total sb b <= py_round b)%Z.
Proof. unfold asignacion_de. apply py_round_mono. apply Qmin_le_r. Qed.

Lemma asignacion_de_no_negativa total sb b :
  0 <= b -> 0 <= total -> (0 <= asignacion_de total sb b)%Z.
Proof.
  intros Hb Ht. unfold asignacion_de. apply py_round_nonneg.
  apply Qmin_glb; auto. apply Qmult_le_0_compat; auto.
  now apply factor_canal_no_negativo.
Qed.

Lemma asignacion_de_agotada total sb b :
  b == 0 -> asignacion_de total sb b = 0%Z.
Proof.
  intro H. unfold asignacion_de.
  assert (E : Qmin (total * factor_canal sb b) b == 0).
  { pose proof (factor_canal_cero sb b H) as F.
    destruct (Qmin_cases (total * factor_canal sb b) b) as [[_ E]|[_ E]];
      rewrite E; [rewrite F; lra | exact H]. }
  rewrite E. reflexivity.
Qed.

Lemma ventas_para_calculo_no_negativas sa s v :
  0 <= v -> 0 <= ventas_para_calculo sa s v.
Proof. intro H. unfold ventas_para_calculo. destruct (semana_cerrada sa s); lra. Qed.


Lemma suma_map_filtro_positivo (bs : list Q) :
  Forall (fun b => 0 <= b) bs ->
  suma (filter (fun b => Qltb 0 b) bs) == suma bs.
Proof.
  induction 1 as [|b bs Hb F IH]; simpl; [reflexivity|].
  destruct (Qltb 0 b) eqn:E.
  - rewrite !suma_cons, IH. reflexivity.
  - apply Qltb_false in E. rewrite suma_cons, IH. lra.
Qed.

Lemma suma_bolsas_total cd :
  Forall (fun e : string * CanalInfo => 0 <= bolsa_disponible (snd e)) cd ->
  suma_bolsas cd == suma (map (fun e => bolsa_disponible (snd e)) cd).
Proof.
  intro H. unfold suma_bolsas.
  assert (E : map bolsa_disponible
                (filter (fun ci => Qltb 0 (bolsa_disponible ci)) (map snd cd))
              = filter (fun b => Qltb 0 b)
                  (map (fun e => bolsa_disponible (snd e)) cd)).
  { clear H. induction cd as [|e cd IH]; simpl; [reflexivity|].
    destruct (Qltb 0 (bolsa_disponible (snd e))); simpl; now rewrite IH. }
  rewrite E. apply suma_map_filtro_positivo.
  apply Forall_map. exact H.
Qed.

(** ** The claims about one SKU's pass *)

Section Reclamos.
Variable config : Config.
Variable semana_actual : Z.
Variable sku_id : string.
Variable grupo_sku : list Fila.

Local Abbreviation paso :=
  (procesar_semana config semana_actual sku_id grupo_sku).
Local Abbreviation recorrido :=
  (recorrer config semana_actual sku_id grupo_sku).
Local Abbreviation traza_del_sku :=
  (traza_sku config semana_actual sku_id grupo_sku).
Local Abbreviation inicial := (estado_inicial config grupo_sku).
Local Abbreviation datos_de := (filas_de_semana grupo_sku).
Local Abbreviation ventas_calc := (ventas_para_calculo semana_actual).
Local Abbreviation total_de :=
  (inventario_semanal_total config semana_actual grupo_sku).
Local Abbreviation teorico_de :=
  (inventario_teorico_semana config semana_actual grupo_sku).
Local Abbreviation no_negativas st :=
  (Forall (fun e : string * CanalInfo => 0 <= bolsa_disponible (snd e))
          (canales_data st)).

Lemma filas_de_canal_In (filas : list Fila) c row resto :
  filas_de_canal filas c = row :: resto -> In row filas.
Proof.
  intro E. assert (In row (filas_de_canal filas c)) as H by (rewrite E; now left).
  apply filter_In in H. tauto.
Qed.

Lemma fila_de_semana_en_grupo s c row resto :
  filas_de_canal (datos_de s) c = row :: resto -> In row grupo_sku.
Proof.
  intro E. apply filas_de_canal_In in E. apply filter_In in E. tauto.
Qed.

(** The states of the trace of a SKU keep the channels of the group, each
    once. *)
Lemma traza_claves s st filas :
  In (s, st, filas) traza_del_sku ->
  map fst (canales_data st) = unique (map Channel grupo_sku) /\
  filas = snd (paso st s).
Proof.
  apply (traza_invariante config semana_actual sku_id grupo_sku
           (fun st => map fst (canales_data st) = unique (map Channel grupo_sku))).
  - intros st0 s0 H. now rewrite procesar_semana_claves.
  - apply estado_inicial_claves.
Qed.

Lemma traza_no_negativas s st filas :
  (forall f, In f grupo_sku -> 0 <= cupo_mensual_canal f) ->
  In (s, st, filas) traza_del_sku ->
  no_negativas st.
Proof.
  intros Hq Hin.
  apply (traza_invariante config semana_actual sku_id grupo_sku
           (fun st => no_negativas st)) in Hin; [tauto| |].
  - intros st0 s0. apply procesar_semana_no_negativas.
  - now apply estado_inicial_no_negativas.
Qed.

(** C10.  Balance never goes negative.  The bookkeeping step writes
    [max(0, balance - sales)]: the written balance is never negative and is 0
    when the sales used reach the balance; every row reports a balance
    [>= 0]; an iteration leaves every entry either untouched (the channel has
    no row in the week) or with a balance [>= 0]; and for non-negative quotas
    every balance is [>= 0] after every iteration of the run. *)
Theorem bolsa_nunca_negativa :
  (forall b v, 0 <= bolsa_tras_ventas b v /\
               (b <= v -> bolsa_tras_ventas b v == 0)) /\
  (forall st s r, In r (snd (paso st s)) ->
                  0 <= a_cupo_canal_restante (base r)) /\
  (forall st s e', In e' (canales_data (fst (paso st s))) ->
                   In e' (canales_data st) \/ 0 <= bolsa_disponible (snd e')) /\
  ((forall f, In f grupo_sku -> 0 <= cupo_mensual_canal f) ->
   forall s st filas, In (s, st, filas) traza_del_sku ->
     Forall (fun e => 0 <= bolsa_disponible (snd e))
            (canales_data (fst (paso st s)))).
Proof.
  repeat split.
  - apply bolsa_tras_ventas_no_negativa.
  - apply bolsa_tras_ventas_agotada.
  - intros st s r H.
    destruct (procesar_semana_fila config semana_actual sku_id grupo_sku st s r H)
      as (primera & resto & canal & info & row & resto' & _ & _ & _ & _ & _ & _ & _ & _ & _ & E).
    rewrite E. apply bolsa_tras_ventas_no_negativa.
  - intros st s e' H.
    destruct (Forall2_In_der _ _ _ _
                (procesar_semana_entradas config semana_actual sku_id grupo_sku st s) H)
      as [e [He [_ [_ [->|(row & resto & _ & Hb)]]]]]; [now left|right].
    rewrite Hb. apply bolsa_tras_ventas_no_negativa.
  - intros Hq s st filas H. apply procesar_semana_no_negativas.
    eapply traza_no_negativas; eauto.
Qed.


(** C7.  Exhaustion stops allocation.  With non-negative sales: from any
    state in which channel [c] has balance 0, every row that the week loop
    appends for [c] -- in the week that starts there and in every later week
    -- assigns 0 units. *)
Theorem agotamiento_detiene_asignacion :
  (forall f, In f grupo_sku -> 0 <= ventas_reales f) ->
  forall st c,
    (forall i, In (c, i) (canales_data st) -> bolsa_disponible i == 0) ->
    forall ss r,
      In r (snd (recorrer config semana_actual sku_id grupo_sku st ss)) ->
      a_canal (base r) = c ->
      a_asignacion_canal (base r) = 0%Z.
Proof.
  intros Hv st c Hz ss. revert st Hz.
  induction ss as [|s ss IH]; intros st Hz r Hr Hc.
  - destruct Hr.
  - rewrite recorrer_cons in Hr. simpl in Hr. apply in_app_or in Hr.
    destruct Hr as [Hr|Hr].
    + destruct (procesar_semana_fila config semana_actual sku_id grupo_sku st s r Hr)
        as (primera & resto & canal & info & row & resto' & _ & Hin & _ & Ec & _ & _ & _ & Ea & _).
      rewrite Ea. apply asignacion_de_agotada. apply Hz. congruence.
    + apply (IH (fst (paso st s))); auto.
      intros i' Hi'.
      destruct (Forall2_In_der _ _ _ _
                  (procesar_semana_entradas config semana_actual sku_id grupo_sku st s) Hi')
        as [[k i] [He [Hk [_ Hcases]]]].
      simpl in Hk. subst k.
      destruct Hcases as [[= ->]|(row & resto & E & Eb)]; [now apply Hz|].
      simpl in Eb. rewrite Eb. apply bolsa_tras_ventas_agotada.
      rewrite (Hz i He). apply ventas_para_calculo_no_negativas.
      apply Hv. eapply fila_de_semana_en_grupo; eauto.
Qed.

(** Capacity up to rounding, over the iterations of one SKU's pass: every
    row assigns [round(min(weeklyTotal * channelFactor, balance))], with
    [balance] the channel's balance at the start of the iteration. *)
Lemma asignacion_acotada_en_traza :
  (forall f, In f grupo_sku -> 0 <= cupo_mensual_canal f) ->
  forall s st filas, In (s, st, filas) traza_del_sku ->
  forall r, In r filas ->
  exists i primera resto,
    buscar_canal (a_canal (base r)) (canales_data st) = Some i /\
    datos_de s = primera :: resto /\
    a_asignacion_canal (base r) =
      asignacion_de (total_de st s (fisico_de_semana st primera))
                    (suma_bolsas (canales_data st)) (bolsa_disponible i) /\
    (a_asignacion_canal (base r) <= py_round (bolsa_disponible i))%Z /\
    inject_Z (a_asignacion_canal (base r)) <= bolsa_disponible i + (1 # 2) /\
    (forall z, bolsa_disponible i == inject_Z z ->
               inject_Z (a_asignacion_canal (base r)) <= bolsa_disponible i) /\
    (0 <= total_de st s (fisico_de_semana st primera) ->
     (0 <= a_asignacion_canal (base r))%Z).
Proof.
  intros Hq s st filas Hin r Hr.
  pose proof (traza_no_negativas s st filas Hq Hin) as Hn.
  destruct (traza_claves s st filas Hin)
    as [Hk ->].
  destruct (procesar_semana_fila config semana_actual sku_id grupo_sku st s r Hr)
    as (primera & resto & canal & info & row & resto' & Ed & Hi & _ & Ec & _ & _ & _ & Ea & _).
  exists info, primera, resto.
  assert (Hb : buscar_canal canal (canales_data st) = Some info).
  { apply In_buscar_canal; auto. rewrite Hk. apply unique_NoDup. }
  assert (H0 : 0 <= bolsa_disponible info).
  { rewrite Forall_forall in Hn. apply (Hn (canal, info) Hi). }
  pose proof (asignacion_de_cota (total_de st s (fisico_de_semana st primera))
                (suma_bolsas (canales_data st)) (bolsa_disponible info)) as Hc.
  rewrite Ec, Ea. repeat split; auto.
  - destruct (py_round_error (bolsa_disponible info)) as [_ U].
    apply Z.le_ge in Hc. apply Z.ge_le in Hc. rewrite Zle_Qle in Hc. lra.
  - intros z Ez. rewrite (py_round_comp _ _ Ez), py_round_inject in Hc.
    rewrite Zle_Qle in Hc. lra.
  - intro Ht. now apply asignacion_de_no_negativa.
Qed.


(** C8 (amended).  Physical availability resolution.  When the week's
    snapshot exists and its stock is positive, the physical availability is
    [initial + arrivals - reserved] from the snapshot, floored at 0; when
    there is no snapshot, or the snapshot's stock is not positive, the
    balance carried from the previous iteration stands in for the initial
    stock; the result is never negative.  The engine computes the
    availability of a week this way from the week's first row, reports it in
    every row of the week, and carries [max(0, availability - sales used)]
    to the next iteration. *)
Theorem disponibilidad_fisica_resuelta :
  (forall snap arribos forecast anterior,
     (forall v, snap = Some v -> 0 < v ->
        disponibilidad_fisica snap arribos forecast anterior
        = Qmax 0 (v + arribos - forecast)) /\
     (forall v, snap = Some v -> v <= 0 ->
        disponibilidad_fisica snap arribos forecast anterior
        = Qmax 0 (anterior + arribos - forecast)) /\
     (snap = None ->
        disponibilidad_fisica snap arribos forecast anterior
        = Qmax 0 (anterior + arribos - forecast)) /\
     0 <= disponibilidad_fisica snap arribos forecast anterior) /\
  (forall st k d s snap arribos forecast v ct cc c p,
     fisico_de_semana st
       (fila_de_consulta k d s snap arribos forecast v ct cc c p)
     = disponibilidad_fisica snap arribos forecast
         (inventario_disponible_semana_anterior st)) /\
  (forall st s r, In r (snd (paso st s)) ->
   exists primera resto,
     datos_de s = primera :: resto /\
     a_inventario_fisico (base r) = fisico_de_semana st primera /\
     0 <= a_inventario_fisico (base r)) /\
  (forall st s primera resto, datos_de s = primera :: resto ->
     inventario_disponible_semana_anterior (fst (paso st s)) =
       Qmax 0 (fisico_de_semana st primera
               - suma (map (fun r => a_ventas_reales (base r))
                           (snd (paso st s))))).
Proof.
  repeat split.
  - intros v -> Hv. unfold disponibilidad_fisica, inventario_inicial_real. simpl.
    apply Qltb_true in Hv. now rewrite Hv.
  - intros v -> Hv. unfold disponibilidad_fisica, inventario_inicial_real. simpl.
    apply Qltb_false in Hv. now rewrite Hv.
  - intros ->. reflexivity.
  - apply Qmax_0_nonneg.
  - intros st s r Hr.
    destruct (procesar_semana_fila config semana_actual sku_id grupo_sku st s r Hr)
      as (primera & resto & canal & info & row & resto' & Ed & _ & _ & _ & _ & _ & Ef & _).
    exists primera, resto. rewrite Ef. repeat split; auto. apply Qmax_0_nonneg.
  - intros st s primera resto Ed. unfold procesar_semana. rewrite Ed. simpl.
    rewrite map_map. reflexivity.
Qed.

End Reclamos.

(** ** Facts about sorting *)

Section HechosOrden.
Variable A : Type.
Variable leb : A -> A -> bool.

Lemma insertar_In x l y : In y (insertar leb x l) <-> y = x \/ In y l.
Proof.
  induction l as [|z l IH]; simpl.
  - intuition.
  - destruct (leb x z); simpl; [intuition|]. rewrite IH. intuition.
Qed.

Lemma ordenar_In l y : In y (ordenar leb l) <-> In y l.
Proof.
  induction l as [|x l IH]; simpl; [tauto|].
  unfold ordenar in *. simpl. rewrite insertar_In, IH. intuition.
Qed.

Lemma insertar_length x l : List.length (insertar leb x l) = S (List.length l).
Proof.
  induction l as [|z l IH]; simpl; [reflexivity|].
  destruct (leb x z); simpl; [reflexivity|]. now rewrite IH.
Qed.

Lemma ordenar_length l : List.length (ordenar leb l) = List.length l.
Proof.
  induction l as [|x l IH]; simpl; [reflexivity|].
  unfold ordenar in *. simpl. now rewrite insertar_length, IH.
Qed.

End HechosOrden.

(** ** The claims about the whole function *)

Lemma flat_map_unitario {A B} (f : A -> list B) l :
  (forall x, In x l -> List.length (f x) = 1%nat) ->
  List.length (flat_map f l) = List.length l.
Proof.
  induction l as [|x l IH]; intro H; simpl; [reflexivity|].
  rewrite List.length_app. rewrite H by (now left).
  rewrite IH by (intros; apply H; now right). reflexivity.
Qed.

Lemma validar_sku_unitario k filas :
  filas <> [] -> List.length (validar_sku k filas) = 1%nat.
Proof.
  destruct filas as [|r0 resto]; [congruence|]. intros _.
  unfold validar_sku.
  destruct (Qltb _ _); reflexivity.
Qed.

(** C5 (amended).  Reconciliation validator.  The validation runs on the
    returned plan and leaves it as the week loops produced it.  It prints
    exactly one line per SKU of the plan, in ascending SKU order, comparing
    the units assigned over all the channels and weeks of the SKU with the
    SKU's total monthly quota (column [cupo_mensual_total] of the SKU's first
    row): a WARNING with the SKU, the assigned total, the quota and the
    difference when the difference exceeds [max(quota * 1%, 10)], and an OK
    line otherwise. *)
Theorem validacion_por_sku :
  forall ahora df config,
  fst (calcular_asignacion_semanal_secuencial ahora df config) =
    flat_map (fun g => procesar_sku config (iso_week ahora) (fst g) (snd g))
             (grupos_por_sku df) /\
  snd (calcular_asignacion_semanal_secuencial ahora df config) =
    validar (fst (calcular_asignacion_semanal_secuencial ahora df config)) /\
  (forall res,
     validar res =
       flat_map (fun k => validar_sku k (filas_resultado_de res k))
                (ordenar String.leb (unique (map (fun r => a_sku (base r)) res))) /\
     List.length (validar res) =
       List.length (unique (map (fun r => a_sku (base r)) res))) /\
  (forall k r0 resto,
     (tolerancia (a_cupo_mensual_total (base r0))
      < Qabs (inject_Z (suma_Z (map (fun r => a_asignacion_canal (base r))
                                    (r0 :: resto)))
              - a_cupo_mensual_total (base r0)) ->
      validar_sku k (r0 :: resto) =
        [WARNING k
           (inject_Z (suma_Z (map (fun r => a_asignacion_canal (base r))
                                  (r0 :: resto))))
           (a_cupo_mensual_total (base r0))
           (Qabs (inject_Z (suma_Z (map (fun r => a_asignacion_canal (base r))
                                        (r0 :: resto)))
                  - a_cupo_mensual_total (base r0)))]) /\
     (Qabs (inject_Z (suma_Z (map (fun r => a_asignacion_canal (base r))
                                  (r0 :: resto)))
            - a_cupo_mensual_total (base r0))
      <= tolerancia (a_cupo_mensual_total (base r0)) ->
      validar_sku k (r0 :: resto) =
        [OK k
           (inject_Z (suma_Z (map (fun r => a_asignacion_canal (base r))
                                  (r0 :: resto))))
           (suma (map (fun r => a_ventas_reales (base r)) (r0 :: resto)))
           (a_cupo_mensual_total (base r0))
           (a_cupo_mensual_total (base r0)
            - suma (map (fun r => a_ventas_reales (base r)) (r0 :: resto)))])).
Proof.
  intros ahora df config. repeat split.
  - unfold validar, claves_ordenadas.
    rewrite flat_map_unitario.
    + apply ordenar_length.
    + intros k Hk. apply validar_sku_unitario.
      rewrite ordenar_In, unique_In in Hk.
      apply in_map_iff in Hk. destruct Hk as [r [Ek Hr]].
      intro E.
      assert (In r (filas_resultado_de res k)) as Hin.
      { apply filter_In. split; auto. now apply String.eqb_eq. }
      rewrite E in Hin. destruct Hin.
  - intro H. apply Qltb_true in H. unfold validar_sku. now rewrite H.
  - intro H. apply Qltb_false in H. unfold validar_sku. now rewrite H.
Qed.

Lemma grupos_por_sku_filas df k grupo :
  In (k, grupo) (grupos_por_sku df) ->
  forall f, In f grupo -> In f df /\ sku f = k.
Proof.
  unfold grupos_por_sku. intros H f Hf.
  apply in_map_iff in H. destruct H as [k' [E _]].
  injection E as -> <-. apply filter_In in Hf.
  destruct Hf as [Hd He]. apply String.eqb_eq in He. auto.
Qed.

Lemma plan_fila ahora df config r :
  In r (fst (calcular_asignacion_semanal_secuencial ahora df config)) ->
  exists k grupo,
    In (k, grupo) (grupos_por_sku df) /\
    In r (procesar_sku config (iso_week ahora) k grupo).
Proof.
  unfold calcular_asignacion_semanal_secuencial, semana_actual_de. simpl.
  intro H. apply in_flat_map in H. destruct H as [[k grupo] [Hg Hr]].
  exists k, grupo. auto.
Qed.

Lemma procesar_sku_fila config sa k grupo r :
  In r (procesar_sku config sa k grupo) ->
  exists s st,
    In (s, st, snd (procesar_semana config sa k grupo st s))
       (traza_sku config sa k grupo) /\
    In r (snd (procesar_semana config sa k grupo st s)).
Proof.
  unfold procesar_sku, traza_sku. intro H.
  apply recorrer_fila in H. destruct H as (s & st & filas & Hin & Hr).
  pose proof (traza_invariante config sa k grupo (fun _ => True)
                (fun _ _ _ => I) _ _ I _ _ _ Hin) as [_ E].
  subst filas. eauto.
Qed.

(** C3 (amended).  Capacity up to rounding, and non-negativity for a
    non-negative weekly total.  With non-negative quotas, every row of the
    returned plan is appended in some iteration of the week loop of its SKU
    and assigns [round(min(weeklyTotal * channelFactor, balance))], where
    [balance] is the channel's balance at the start of that iteration.  Hence
    the assigned units are at most [round(balance)], at most
    [balance + 1/2], at most [balance] itself when the balance is a whole
    number, and are [>= 0] whenever the week's total to distribute is
    [>= 0]. *)
Theorem asignacion_acotada_por_bolsa :
  forall ahora df config,
  (forall f, In f df -> 0 <= cupo_mensual_canal f) ->
  forall r,
  In r (fst (calcular_asignacion_semanal_secuencial ahora df config)) ->
  exists k grupo s st i primera resto,
    In (k, grupo) (grupos_por_sku df) /\
    In (s, st, snd (procesar_semana config (iso_week ahora) k grupo st s))
       (traza_sku config (iso_week ahora) k grupo) /\
    In r (snd (procesar_semana config (iso_week ahora) k grupo st s)) /\
    buscar_canal (a_canal (base r)) (canales_data st) = Some i /\
    filas_de_semana grupo s = primera :: resto /\
    a_asignacion_canal (base r) =
      asignacion_de
        (inventario_semanal_total config (iso_week ahora) grupo st s
                                  (fisico_de_semana st primera))
        (suma_bolsas (canales_data st)) (bolsa_disponible i) /\
    (a_asignacion_canal (base r) <= py_round (bolsa_disponible i))%Z /\
    inject_Z (a_asignacion_canal (base r)) <= bolsa_disponible i + (1 # 2) /\
    (forall z, bolsa_disponible i == inject_Z z ->
               inject_Z (a_asignacion_canal (base r)) <= bolsa_disponible i) /\
    (0 <= inventario_semanal_total config (iso_week ahora) grupo st s
                                   (fisico_de_semana st primera) ->
     (0 <= a_asignacion_canal (base r))%Z).
Proof.
  intros ahora df config Hq r Hr.
  destruct (plan_fila ahora df config r Hr) as (k & grupo & Hg & Hk).
  destruct (procesar_sku_fila config (iso_week ahora) k grupo r Hk)
    as (s & st & Hin & Hrs).
  assert (Hqg : forall f, In f grupo -> 0 <= cupo_mensual_canal f).
  { intros f Hf. apply Hq. eapply grupos_por_sku_filas; eauto. }
  destruct (asignacion_acotada_en_traza config (iso_week ahora) k grupo Hqg
              s st _ Hin r Hrs)
    as (i & primera & resto & H).
  exists k, grupo, s, st, i, primera, resto. tauto.
Qed.


(** C4.  Order of the weeks.  The week loop visits [sorted(semanas)], the
    weeks by ascending number.  For 'Diciembre 2025' that is the order of the
    start dates.  For 'Enero 2026', configured as [53, 1, 2, 3, 4] in the
    order of the start dates, the loop visits [1, 2, 3, 4, 53]: week 53,
    which starts on 2025-12-28, is processed last, after the week that
    starts on 2026-01-25, and the rows of a run come out in that order. *)
Theorem orden_de_proceso_enero :
  orden_de_proceso enero_2026 = [1; 2; 3; 4; 53]%Z /\
  orden_cronologico enero_2026 (semanas enero_2026) = true /\
  orden_cronologico enero_2026 (orden_de_proceso enero_2026) = false /\
  orden_cronologico diciembre_2025 (orden_de_proceso diciembre_2025) = true /\
  map (fun r => a_semana (base r))
      (fst (calcular_asignacion_semanal_secuencial
              Escenarios.semana_2_de_2026 Escenarios.df_sin_ventas
              enero_2026))
  = [1; 1; 2; 2; 3; 3; 4; 4; 53; 53]%Z.
Proof. repeat split; vm_compute; reflexivity. Qed.

(** ** Rounding a proportional split *)

Lemma py_round_doble x : x <= 0 -> 2 * x <= inject_Z (py_round x).
Proof.
  intro H. destruct (Qlt_le_dec x (- (1 # 2))) as [L|G].
  - destruct (py_round_error x) as [E _]. lra.
  - apply py_round_mono in G. change (py_round (- (1 # 2))) with 0%Z in G.
    rewrite Zle_Qle in G. change (inject_Z 0) with 0 in G. lra.
Qed.

Lemma suma_Z_inject l : inject_Z (suma_Z l) == suma (map inject_Z l).
Proof.
  induction l as [|z l IH]; simpl; [reflexivity|].
  rewrite suma_Z_cons, suma_cons, inject_Z_plus, IH. reflexivity.
Qed.

Lemma largo_cons {A} (x : A) l : largo (x :: l) == largo l + 1.
Proof.
  unfold largo. simpl List.length. rewrite Nat2Z.inj_succ.
  unfold Z.succ. rewrite inject_Z_plus. reflexivity.
Qed.

Lemma largo_nil {A} : largo (@nil A) == 0.
Proof. reflexivity. Qed.

Lemma largo_no_negativo {A} (l : list A) : 0 <= largo l.
Proof.
  unfold largo. change 0 with (inject_Z 0). rewrite <- Zle_Qle. lia.
Qed.

Lemma suma_redondeos_error xs :
  suma xs - largo xs * (1 # 2) <= inject_Z (suma_Z (map py_round xs)) /\
  inject_Z (suma_Z (map py_round xs)) <= suma xs + largo xs * (1 # 2).
Proof.
  induction xs as [|x xs [IH1 IH2]].
  - split; vm_compute; discriminate.
  - simpl map. rewrite suma_Z_cons, suma_cons, largo_cons, inject_Z_plus.
    destruct (py_round_error x) as [E1 E2]. split; lra.
Qed.

Lemma suma_redondeos_no_negativa xs :
  Forall (fun x => 0 <= x) xs -> (0 <= suma_Z (map py_round xs))%Z.
Proof.
  induction 1 as [|x xs Hx F IH]; simpl; [reflexivity|].
  rewrite suma_Z_cons. apply py_round_nonneg in Hx. lia.
Qed.

Lemma suma_redondeos_no_positiva xs :
  Forall (fun x => x <= 0) xs ->
  (suma_Z (map py_round xs) <= 0)%Z /\
  2 * suma xs <= inject_Z (suma_Z (map py_round xs)).
Proof.
  induction 1 as [|x xs Hx F [IH1 IH2]].
  - split; [reflexivity|vm_compute; discriminate].
  - simpl map. rewrite suma_Z_cons, suma_cons, inject_Z_plus. split.
    + apply py_round_nonpos in Hx. lia.
    + pose proof (py_round_doble x Hx). lra.
Qed.

Lemma suma_reparto total T qs :
  ~ T == 0 ->
  suma (map (fun q => total * (q / T)) qs) == total * (suma qs / T).
Proof.
  intro HT. induction qs as [|q qs IH]; simpl.
  - unfold suma. simpl. field. exact HT.
  - rewrite !suma_cons, IH. field. exact HT.
Qed.

Section Reparto.
Variable qs : list Q.
Variable T : Q.
Hypothesis T_suma : T == suma qs.
Hypothesis qs_positivos : Forall (fun q => 0 < q) qs.
Hypothesis T_holgado : largo qs * (1 # 2) <= T.
Hypothesis T_positivo : 0 < T.

Local Abbreviation repartido := (repartido T qs).

Lemma repartido_error total :
  total - largo qs * (1 # 2) <= inject_Z (repartido total) /\
  inject_Z (repartido total) <= total + largo qs * (1 # 2).
Proof.
  unfold Redondeo.repartido.
  pose proof (suma_redondeos_error (map (fun q => total * (q / T)) qs)) as H.
  rewrite map_map in H. unfold largo in *. rewrite length_map in H.
  rewrite suma_reparto in H by lra.
  assert (E : total * (suma qs / T) == total)
    by (rewrite <- T_suma; field; lra).
  rewrite E in H. exact H.
Qed.

Lemma peso_no_negativo q : 0 < q -> 0 <= q / T.
Proof.
  intro Hq. apply Qlt_le_weak. apply Qlt_shift_div_l; lra.
Qed.

Lemma partes_signo total :
  (0 <= total -> Forall (fun x => 0 <= x) (map (fun q => total * (q / T)) qs)) /\
  (total <= 0 -> Forall (fun x => x <= 0) (map (fun q => total * (q / T)) qs)).
Proof.
  rewrite Forall_forall in qs_positivos.
  split; intro H; apply Forall_map; apply Forall_forall; intros q Hq;
    pose proof (peso_no_negativo q (qs_positivos q Hq)) as W.
  - apply Qmult_le_0_compat; auto.
  - assert (0 <= (- total) * (q / T)) by (apply Qmult_le_0_compat; lra). lra.
Qed.

(** The pool left after a week stays between [-n/2] and [T]. *)
Lemma resto_acotado R p :
  - (largo qs * (1 # 2)) <= R -> R <= T -> 0 < p -> p <= 1 ->
  - (largo qs * (1 # 2)) <= R - inject_Z (repartido (R * p)) /\
  R - inject_Z (repartido (R * p)) <= T.
Proof.
  intros R1 R2 P1 P2.
  destruct (repartido_error (R * p)) as [E1 E2].
  pose proof (largo_no_negativo qs) as Ln.
  destruct (Qlt_le_dec R 0) as [Neg|Pos].
  - assert (Ht : R * p <= 0).
    { assert (0 <= (- R) * p) by (apply Qmult_le_0_compat; lra). lra. }
    destruct (suma_redondeos_no_positiva _ (proj2 (partes_signo (R * p)) Ht))
      as [S1 S2].
    rewrite map_map in S1, S2. fold (Redondeo.repartido T qs (R * p)) in S1, S2.
    rewrite suma_reparto in S2 by lra.
    assert (E : R * p * (suma qs / T) == R * p)
      by (rewrite <- T_suma; field; lra).
    rewrite E in S2. rewrite Zle_Qle in S1. change (inject_Z 0) with 0 in S1.
    assert (0 <= (- R) * (1 - p)) by (apply Qmult_le_0_compat; lra).
    split; lra.
  - assert (Ht : 0 <= R * p) by (apply Qmult_le_0_compat; lra).
    pose proof (suma_redondeos_no_negativa _ (proj1 (partes_signo (R * p)) Ht))
      as S1.
    rewrite map_map in S1. fold (Redondeo.repartido T qs (R * p)) in S1.
    rewrite Zle_Qle in S1. change (inject_Z 0) with 0 in S1.
    assert (0 <= R * (1 - p)) by (apply Qmult_le_0_compat; lra).
    split; lra.
Qed.

(** One channel's rounded part against its share of what was handed out. *)
Lemma parte_contra_repartido total q :
  0 < q ->
  Qabs (inject_Z (py_round (total * (q / T))) - (q / T) * inject_Z (repartido total))
  <= (1 # 2) + (q / T) * (largo qs * (1 # 2)).
Proof.
  intro Hq.
  destruct (repartido_error total) as [E1 E2].
  destruct (py_round_error (total * (q / T))) as [P1 P2].
  pose proof (peso_no_negativo q Hq) as W.
  set (w := q / T) in *. set (S := inject_Z (repartido total)) in *.
  set (a := inject_Z (py_round (total * w))) in *.
  set (h := largo qs * (1 # 2)) in *.
  assert (0 <= w * (S - total + h)) by (apply Qmult_le_0_compat; lra).
  assert (0 <= w * (total + h - S)) by (apply Qmult_le_0_compat; lra).
  apply Qabs_Qle_condition. split; lra.
Qed.

End Reparto.

(** ** Sorted week lists *)

Lemma insertar_ordenada x l :
  StronglySorted Z.le l -> StronglySorted Z.le (insertar Z.leb x l).
Proof.
  induction 1 as [|y r Hs IH Hf]; simpl.
  - constructor; constructor.
  - destruct (Z.leb x y) eqn:E.
    + apply Z.leb_le in E. constructor.
      * constructor; auto.
      * constructor; auto. eapply Forall_impl; [|exact Hf].
        intros z Hz. lia.
    + apply Z.leb_gt in E. constructor; auto.
      apply Forall_forall. intros z Hz. apply insertar_In in Hz.
      destruct Hz as [->|Hz]; [lia|].
      rewrite Forall_forall in Hf. auto.
Qed.

Lemma ordenar_ordenada l : StronglySorted Z.le (ordenar Z.leb l).
Proof.
  induction l as [|x l IH]; simpl; [constructor|].
  apply insertar_ordenada. exact IH.
Qed.

Lemma ordenada_ultimo l :
  StronglySorted Z.le l -> l <> [] ->
  exists init mx, l = init ++ [mx] /\ forall x, In x l -> (x <= mx)%Z.
Proof.
  induction 1 as [|a r Hs IH Hf]; intro Hne; [congruence|].
  destruct r as [|b r'].
  - exists (@nil Z), a. split; [reflexivity|]. intros x [<-|[]]. lia.
  - destruct IH as (init & mx & E & Hmx); [discriminate|].
    exists (a :: init), mx. split; [simpl; now rewrite E|].
    intros x [<-|Hx]; [|auto].
    rewrite Forall_forall in Hf.
    assert (a <= b)%Z by (apply Hf; now left).
    assert (b <= mx)%Z by (apply Hmx; now left). lia.
Qed.

Lemma filter_unico (p : Z -> bool) l x :
  NoDup l -> In x l -> p x = true ->
  (forall y, In y l -> p y = true -> y = x) ->
  filter p l = [x].
Proof.
  induction l as [|a l IH]; intros N Hx Px Hu; [destruct Hx|].
  inversion N as [|? ? Na Nl]; subst. simpl.
  destruct Hx as [->|Hx].
  - rewrite Px. f_equal.
    assert (forall y, In y l -> p y = false) as Hf.
    { intros y Hy. destruct (p y) eqn:E; auto.
      assert (y = x) by (apply Hu; [now right|exact E]). subst. contradiction. }
    clear -Hf. induction l as [|b l IH]; simpl; [reflexivity|].
    rewrite Hf by (now left). apply IH. intros; apply Hf; now right.
  - destruct (p a) eqn:E.
    + assert (a = x) by (apply Hu; [now left|exact E]). subst. contradiction.
    + apply IH; auto. intros; apply Hu; auto. now right.
Qed.

Lemma suma_map_cota {A} (g : A -> Q) l x :
  (forall y, In y l -> 0 <= g y) -> In x l -> g x <= suma (map g l).
Proof.
  induction l as [|a l IH]; intros Hg Hx; [destruct Hx|].
  simpl. rewrite suma_cons.
  assert (0 <= suma (map g l)).
  { apply suma_nonneg. intros z Hz. apply in_map_iff in Hz.
    destruct Hz as [y [<- Hy]]. apply Hg. now right. }
  destruct Hx as [->|Hx].
  - lra.
  - assert (0 <= g a) by (apply Hg; now left).
    assert (g x <= suma (map g l)) by (apply IH; auto; intros; apply Hg; now right).
    lra.
Qed.

Lemma fold_left_fijo {A B} (f : A -> B -> A) l a :
  (forall x, In x l -> f a x = a) -> fold_left f l a = a.
Proof.
  induction l as [|x l IH]; intro H; simpl; [reflexivity|].
  rewrite H by (now left). apply IH. intros; apply H; now right.
Qed.

Lemma recorrer_app config sa k grupo l1 : forall st l2,
  recorrer config sa k grupo st (l1 ++ l2) =
  (fst (recorrer config sa k grupo (fst (recorrer config sa k grupo st l1)) l2),
   snd (recorrer config sa k grupo st l1)
   ++ snd (recorrer config sa k grupo (fst (recorrer config sa k grupo st l1)) l2)).
Proof.
  induction l1 as [|s l1 IH]; intros st l2.
  - simpl. now destruct (recorrer config sa k grupo st l2).
  - rewrite <- app_comm_cons, !recorrer_cons, IH. simpl.
    now rewrite app_assoc.
Qed.

(** ** Units assigned to a channel *)

Lemma asignado_canal_app c l1 l2 :
  asignado_canal c (l1 ++ l2) = (asignado_canal c l1 + asignado_canal c l2)%Z.
Proof.
  unfold asignado_canal. now rewrite filter_app, map_app, suma_Z_app.
Qed.

Lemma asignado_canal_pares c (g : string * CanalInfo -> Z) rows cd :
  map (fun r => (a_canal (base r), a_asignacion_canal (base r))) rows
    = map (fun e => (fst e, g e)) cd ->
  NoDup (map fst cd) ->
  forall i, buscar_canal c cd = Some i ->
  asignado_canal c rows = g (c, i).
Proof.
  revert cd. unfold asignado_canal.
  induction rows as [|r rows IH]; intros [|[k j] cd] E N i Hb;
    simpl in *; try discriminate.
  injection E as E1 E2 E3. apply NoDup_cons_iff in N. destruct N as [Nk Nr].
  rewrite E1. destruct (String.eqb k c) eqn:Ek.
  - apply String.eqb_eq in Ek. injection Hb as Hj.
    simpl. rewrite suma_Z_cons, E2. rewrite Ek in Nk |- *. rewrite Hj.
    assert (Z0 : forall cd' rows',
               map (fun r => (a_canal (base r), a_asignacion_canal (base r))) rows'
                 = map (fun e => (fst e, g e)) cd' ->
               ~ In c (map fst cd') ->
               suma_Z (map (fun r => a_asignacion_canal (base r))
                         (filter (fun r => String.eqb (a_canal (base r)) c) rows'))
               = 0%Z).
    { clear. intros cd'. induction cd' as [|[k j] cd' IH]; intros [|r rows'] E N;
        simpl in *; try discriminate; [reflexivity|].
      injection E as E1 E2 E3. rewrite E1.
      destruct (String.eqb k c) eqn:Ek.
      - apply String.eqb_eq in Ek. tauto.
      - apply IH; auto. }
    rewrite (Z0 cd rows E3 Nk). lia.
  - apply (IH cd E3 Nr i Hb).
Qed.

(** ** A month whose weeks are all open *)

Lemma largo_app {A} (l1 l2 : list A) : largo (l1 ++ l2) == largo l1 + largo l2.
Proof.
  unfold largo. rewrite List.length_app, Nat2Z.inj_add, inject_Z_plus.
  reflexivity.
Qed.

Lemma largo_map {A B} (f : A -> B) l : largo (map f l) = largo l.
Proof. unfold largo. now rewrite List.length_map. Qed.

Lemma suma_holgada l :
  Forall (fun q => (1 # 2) <= q) l -> largo l * (1 # 2) <= suma l.
Proof.
  induction 1 as [|q l Hq F IH].
  - vm_compute. discriminate.
  - rewrite largo_cons, suma_cons. lra.
Qed.

Lemma repartido_comp T qs total total' :
  total == total' -> repartido T qs total = repartido T qs total'.
Proof.
  intro E. unfold repartido. f_equal. apply map_ext.
  intro q. apply py_round_comp. now rewrite E.
Qed.

Lemma Qabs_cota x b : - b <= x -> x <= b -> Qabs x <= b.
Proof. intros. apply Qabs_Qle_condition. split; assumption. Qed.

Lemma Qabs_cota_inv x b : Qabs x <= b -> - b <= x /\ x <= b.
Proof. intro H. apply Qabs_Qle_condition in H. exact H. Qed.

Section MesAbierto.
Variable config : Config.
Variable semana_actual : Z.
Variable sku_id : string.
Variable grupo_sku : list Fila.

Hypothesis semanas_distintas : NoDup (semanas config).
Hypothesis semanas_abiertas :
  forall s, In s (semanas config) -> (semana_actual <= s)%Z.
Hypothesis factores_positivos :
  forall s, In s (semanas config) ->
            0 < factores_get (factores_estacionalidad config) s.
Hypothesis datos_completos :
  forall s c, In s (semanas config) -> In c (map Channel grupo_sku) ->
              filas_de_canal (filas_de_semana grupo_sku s) c <> [].
Hypothesis cupos_holgados :
  forall f, In f grupo_sku -> (1 # 2) <= cupo_mensual_canal f.

Local Abbreviation cd0 := (canales_data (estado_inicial config grupo_sku)).
Local Abbreviation cupo_de :=
  (fun e : string * CanalInfo => cupo_mensual (snd e)).
Local Abbreviation qs := (map cupo_de cd0).
Local Abbreviation T := (suma qs).
Local Abbreviation paso :=
  (procesar_semana config semana_actual sku_id grupo_sku).
Local Abbreviation recorrido :=
  (recorrer config semana_actual sku_id grupo_sku).
Local Abbreviation teorico_de :=
  (inventario_teorico_semana config semana_actual grupo_sku).
Local Abbreviation igual_a_cupo :=
  (fun e0 e : string * CanalInfo =>
     fst e = fst e0 /\ bolsa_disponible (snd e) == cupo_mensual (snd e0)).
Local Abbreviation conserva st :=
  (Forall2 igual_a_cupo cd0 (canales_data st)).
Local Abbreviation resto_en_rango A :=
  (- (largo qs * (1 # 2)) <= T - inject_Z A /\ T - inject_Z A <= T).

Lemma cd0_entradas :
  Forall (fun e => bolsa_disponible (snd e) = cupo_mensual (snd e) /\
                   (1 # 2) <= cupo_mensual (snd e) /\
                   In (fst e) (map Channel grupo_sku)) cd0.
Proof.
  eapply Forall_impl; [|apply estado_inicial_entradas].
  intros e (f0 & r & E & Ec & Eb).
  assert (In f0 (filas_de_canal grupo_sku (fst e))) as Hin
    by (rewrite E; now left).
  apply filter_In in Hin. destruct Hin as [Hg Hc].
  apply String.eqb_eq in Hc.
  repeat split.
  - congruence.
  - rewrite Ec. now apply cupos_holgados.
  - rewrite <- Hc. now apply in_map.
Qed.

Lemma qs_holgados : Forall (fun q => (1 # 2) <= q) qs.
Proof.
  apply Forall_map. eapply Forall_impl; [|apply cd0_entradas].
  intros e (_ & H & _). exact H.
Qed.

Lemma qs_positivos : Forall (fun q => 0 < q) qs.
Proof.
  eapply Forall_impl; [|apply qs_holgados]. intros q H. simpl in H. lra.
Qed.

Lemma T_holgado : largo qs * (1 # 2) <= T.
Proof. apply suma_holgada. apply qs_holgados. Qed.

Lemma T_positivo : cd0 <> [] -> 0 < T.
Proof.
  intro H. pose proof T_holgado as Hh.
  destruct cd0 as [|e l] eqn:E; [congruence|].
  simpl map in *. rewrite largo_cons in Hh.
  pose proof (largo_no_negativo (map cupo_de l)). lra.
Qed.

Lemma conserva_inicial : conserva (estado_inicial config grupo_sku).
Proof.
  pose proof cd0_entradas as F.
  induction F as [|e l [Hb _] F IH]; constructor; auto.
  split; [reflexivity|]. rewrite Hb. reflexivity.
Qed.

Lemma cd0_claves_unicas : NoDup (map fst cd0).
Proof. rewrite estado_inicial_claves. apply unique_NoDup. Qed.

(** *** Seasonality shares *)

Lemma proporcion_acotada s :
  In s (semanas config) ->
  0 < proporcion_semana config s /\ proporcion_semana config s <= 1.
Proof.
  intro Hs. unfold proporcion_semana, suma_factores_restantes, semanas_restantes.
  unfold Motor.factores.
  set (g := factores_get (factores_estacionalidad config)).
  set (l := filter (fun s' => (s <=? s')%Z) (semanas config)).
  assert (Hl : In s l) by (apply filter_In; split; auto; apply Z.leb_refl).
  assert (Hg : forall y, In y l -> 0 <= g y).
  { intros y Hy. apply filter_In in Hy. apply Qlt_le_weak.
    apply factores_positivos. tauto. }
  pose proof (suma_map_cota g l s Hg Hl) as Hc.
  pose proof (factores_positivos s Hs) as Hf. fold g in Hf.
  assert (Hp : 0 < suma (map g l)) by lra.
  apply Qltb_true in Hp as Hb. rewrite Hb. split.
  - apply Qlt_shift_div_l; lra.
  - apply Qle_shift_div_r; lra.
Qed.

Lemma proporcion_ultima mx :
  In mx (semanas config) ->
  (forall s, In s (semanas config) -> (s <= mx)%Z) ->
  proporcion_semana config mx == 1.
Proof.
  intros Hm Hmax.
  unfold proporcion_semana, suma_factores_restantes, semanas_restantes.
  unfold Motor.factores.
  rewrite (filter_unico _ (semanas config) mx); auto.
  - simpl map. unfold suma. simpl fold_left.
    pose proof (factores_positivos mx Hm) as Hf.
    set (f := factores_get (factores_estacionalidad config) mx) in *.
    assert (Hp : 0 < 0 + f) by lra.
    apply Qltb_true in Hp. rewrite Hp. field. lra.
  - apply Z.leb_refl.
  - intros y Hy Hle. apply Z.leb_le in Hle. specialize (Hmax y Hy). lia.
Qed.

Lemma ventas_pasadas_abiertas s :
  ventas_reales_pasadas config semana_actual grupo_sku s = 0.
Proof.
  unfold ventas_reales_pasadas. apply fold_left_fijo.
  intros x Hx. specialize (semanas_abiertas x Hx).
  assert ((x <? semana_actual)%Z = false) as E by (apply Z.ltb_ge; lia).
  rewrite E, andb_false_r. reflexivity.
Qed.

Lemma teorico_abierto st s :
  teorico_de st s ==
    (T - inject_Z (asignaciones_acumuladas st)) * proporcion_semana config s.
Proof.
  unfold inventario_teorico_semana, inventario_disponible_mes.
  rewrite ventas_pasadas_abiertas, cupo_mensual_total_sku_suma.
  ring.
Qed.

Lemma total_abierto st s fisico :
  In s (semanas config) ->
  inventario_semanal_total config semana_actual grupo_sku st s fisico
  = teorico_de st s.
Proof.
  intro Hs. unfold inventario_semanal_total.
  assert ((semana_actual <=? s)%Z = true) as E
    by (apply Z.leb_le; now apply semanas_abiertas).
  now rewrite E.
Qed.


(** *** One open week *)

Lemma suma_conserva l0 l :
  Forall2 igual_a_cupo l0 l ->
  suma (map (fun e => bolsa_disponible (snd e)) l) == suma (map cupo_de l0).
Proof.
  induction 1 as [|e0 e l0 l [_ E] F IH]; simpl; [reflexivity|].
  rewrite !suma_cons, IH, E. reflexivity.
Qed.

Lemma suma_bolsas_conserva st :
  conserva st -> suma_bolsas (canales_data st) == T.
Proof.
  intro H. rewrite suma_bolsas_total.
  - now apply suma_conserva.
  - pose proof qs_positivos as Hq. rewrite Forall_map in Hq.
    revert Hq. induction H as [|e0 e l0 l [_ E] F IH]; intro Hq;
      constructor.
    + inversion Hq; subst. simpl in *. rewrite E. lra.
    + inversion Hq; subst. auto.
Qed.

Lemma asignacion_sin_tope total sb b q :
  0 < T -> sb == T -> b == q -> 0 < q -> total <= T ->
  asignacion_de total sb b = py_round (total * (q / T)).
Proof.
  intros HT Hsb Hb Hq Ht. unfold asignacion_de. apply py_round_comp.
  assert (F : factor_canal sb b == q / T).
  { unfold factor_canal. assert (0 < sb) as Hp by lra.
    apply Qltb_true in Hp. rewrite Hp, Hsb, Hb. reflexivity. }
  assert (W : 0 <= q / T) by (apply Qlt_le_weak; apply Qlt_shift_div_l; lra).
  assert (D : q - total * (q / T) == (T - total) * (q / T)) by (field; lra).
  assert (0 <= (T - total) * (q / T)) by (apply Qmult_le_0_compat; lra).
  destruct (Qmin_cases (total * factor_canal sb b) b) as [[L E]|[L E]];
    rewrite E, ?F; [reflexivity|].
  rewrite F in L. lra.
Qed.

Lemma canales_abiertos s datos ini arr fc fis total sb :
  In s (semanas config) -> 0 < T -> sb == T -> total <= T ->
  forall l0 l,
    Forall2 igual_a_cupo l0 l ->
    Forall (fun e0 => 0 < cupo_de e0 /\ filas_de_canal datos (fst e0) <> []) l0 ->
    Forall2 igual_a_cupo l0
      (map (fun e => fst (procesar_canal semana_actual sku_id s datos
                            ini arr fc fis total sb e)) l) /\
    map (fun a => (a_canal a, a_asignacion_canal a))
        (flat_map (fun e => opcion_a_lista
                              (snd (procesar_canal semana_actual sku_id s datos
                                      ini arr fc fis total sb e))) l)
    = map (fun e0 => (fst e0, py_round (total * (cupo_de e0 / T)))) l0.
Proof.
  intros Hs HT Hsb Ht.
  assert (Ha : semana_cerrada semana_actual s = false).
  { unfold semana_cerrada. apply Z.ltb_ge. now apply semanas_abiertas. }
  induction 1 as [|[c0 i0] [c i] l0 l [Ek Eb] F IH]; intro Hf.
  - split; [constructor|reflexivity].
  - inversion Hf as [|? ? [Hq Hd] Hf']; subst. simpl in Ek, Eb, Hq, Hd. subst c.
    destruct (IH Hf') as [IH1 IH2]. clear IH.
    cbn [map flat_map].
    remember (procesar_canal semana_actual sku_id s datos ini arr fc fis
                             total sb (c0, i)) as pc eqn:Epc.
    unfold procesar_canal in Epc.
    destruct (filas_de_canal datos c0) as [|row resto] eqn:E; [congruence|].
    subst pc. cbn [fst snd opcion_a_lista app map a_canal a_asignacion_canal].
    split.
    + constructor; [|exact IH1]. simpl. split; [reflexivity|].
      unfold bolsa_tras_ventas, ventas_para_calculo. rewrite Ha.
      rewrite Qmax_0_eq; lra.
    + f_equal; [|exact IH2]. f_equal.
      now apply asignacion_sin_tope.
Qed.

Lemma semana_con_datos s :
  In s (semanas config) -> cd0 <> [] -> filas_de_semana grupo_sku s <> [].
Proof.
  intros Hs Hne E. pose proof cd0_entradas as F.
  destruct cd0 as [|e l]; [congruence|].
  inversion F as [|? ? (_ & _ & Hc) _]; subst.
  apply (datos_completos s (fst e) Hs Hc). rewrite E. reflexivity.
Qed.

Lemma cd0_con_filas s :
  In s (semanas config) ->
  Forall (fun e0 => 0 < cupo_de e0 /\
                    filas_de_canal (filas_de_semana grupo_sku s) (fst e0) <> [])
         cd0.
Proof.
  intro Hs. eapply Forall_impl; [|apply cd0_entradas].
  intros e (_ & Hq & Hc). simpl. split; [lra|]. now apply datos_completos.
Qed.

Lemma paso_abierto st s :
  In s (semanas config) -> cd0 <> [] -> conserva st ->
  teorico_de st s <= T ->
  conserva (fst (paso st s)) /\
  asignaciones_acumuladas (fst (paso st s)) =
    (asignaciones_acumuladas st + repartido T qs (teorico_de st s))%Z /\
  map (fun r => (a_canal (base r), a_asignacion_canal (base r)))
      (snd (paso st s))
  = map (fun e0 => (fst e0, py_round (teorico_de st s * (cupo_de e0 / T)))) cd0.
Proof.
  intros Hs Hne Hc Ht.
  pose proof (semana_con_datos s Hs Hne) as Hd.
  pose proof (T_positivo Hne) as HT.
  unfold procesar_semana.
  destruct (filas_de_semana grupo_sku s) as [|primera resto] eqn:Ed;
    [congruence|].
  rewrite (total_abierto st s _ Hs).
  pose proof (cd0_con_filas s Hs) as Hf. rewrite Ed in Hf.
  match goal with
  | |- context [map (procesar_canal _ _ _ ?d ?ini ?arr ?fc ?fis ?tot ?sb) _] =>
      destruct (canales_abiertos s d ini arr fc fis tot sb Hs HT
                  (suma_bolsas_conserva st Hc) Ht cd0 (canales_data st) Hc Hf)
        as [C1 C2]
  end.
  assert ((semana_actual <=? s)%Z = true) as E
    by (apply Z.leb_le; now apply semanas_abiertas).
  simpl. rewrite E. rewrite !map_map. simpl.
  rewrite !flat_map_concat_map, !map_map, <- !flat_map_concat_map.
  simpl. repeat split.
  - exact C1.
  - f_equal. unfold repartido. rewrite map_map.
    match goal with
    | |- context [map a_asignacion_canal ?l] =>
        change (map a_asignacion_canal l)
          with (map (fun a => snd (a_canal a, a_asignacion_canal a)) l)
    end.
    rewrite <- (map_map (fun a => (a_canal a, a_asignacion_canal a)) snd).
    rewrite C2, map_map. reflexivity.
  - exact C2.
Qed.


(** *** The whole month *)

Lemma cupo_de_canal_positivo c i0 :
  buscar_canal c cd0 = Some i0 -> 0 < cupo_mensual i0.
Proof.
  intro H. apply buscar_canal_In in H.
  pose proof cd0_entradas as F. rewrite Forall_forall in F.
  destruct (F _ H) as (_ & Hq & _). simpl in Hq. lra.
Qed.

Lemma teorico_bajo_total st s :
  In s (semanas config) -> resto_en_rango (asignaciones_acumuladas st) ->
  teorico_de st s <= T.
Proof.
  intros Hs [R1 R2]. rewrite teorico_abierto.
  destruct (proporcion_acotada s Hs) as [P1 P2].
  set (R := T - inject_Z (asignaciones_acumuladas st)) in *.
  set (p := proporcion_semana config s) in *.
  pose proof (largo_no_negativo qs).
  pose proof T_holgado.
  destruct (Qlt_le_dec R 0) as [Neg|Pos].
  - assert (0 <= (- R) * p) by (apply Qmult_le_0_compat; lra). lra.
  - assert (0 <= R * (1 - p)) by (apply Qmult_le_0_compat; lra). lra.
Qed.

Lemma semana_abierta st s c i0 :
  In s (semanas config) -> cd0 <> [] -> conserva st ->
  resto_en_rango (asignaciones_acumuladas st) ->
  buscar_canal c cd0 = Some i0 ->
  conserva (fst (paso st s)) /\
  resto_en_rango (asignaciones_acumuladas (fst (paso st s))) /\
  asignado_canal c (snd (paso st s))
    = py_round (teorico_de st s * (cupo_mensual i0 / T)) /\
  Qabs (inject_Z (asignado_canal c (snd (paso st s)))
        - (cupo_mensual i0 / T)
          * (inject_Z (asignaciones_acumuladas (fst (paso st s)))
             - inject_Z (asignaciones_acumuladas st)))
  <= (1 # 2) + (cupo_mensual i0 / T) * (largo qs * (1 # 2)).
Proof.
  intros Hs Hne Hc Hr Hb.
  pose proof (teorico_bajo_total st s Hs Hr) as Ht.
  pose proof (T_positivo Hne) as HT.
  destruct (paso_abierto st s Hs Hne Hc Ht) as (C1 & C2 & C3).
  pose proof (asignado_canal_pares c
                (fun e0 => py_round (teorico_de st s * (cupo_de e0 / T)))
                _ _ C3 cd0_claves_unicas i0 Hb) as Ea.
  cbv beta in Ea. cbn [snd] in Ea.
  destruct (proporcion_acotada s Hs) as [P1 P2].
  destruct Hr as [R1 R2].
  pose proof (resto_acotado qs T (Qeq_refl _) qs_positivos T_holgado HT
                _ _ R1 R2 P1 P2) as [N1 N2].
  rewrite <- (repartido_comp T qs _ _ (teorico_abierto st s)) in N1, N2.
  pose proof (parte_contra_repartido qs T (Qeq_refl _) HT
                (teorico_de st s) (cupo_mensual i0)
                (cupo_de_canal_positivo c i0 Hb)) as Hp.
  repeat split; auto.
  - rewrite C2, inject_Z_plus. lra.
  - rewrite C2, inject_Z_plus. lra.
  - rewrite C2, inject_Z_plus, Ea.
    apply Qabs_cota_inv in Hp. destruct Hp as [Hp1 Hp2].
    apply Qabs_cota; lra.
Qed.

Lemma semanas_abiertas_del_mes c i0 :
  cd0 <> [] -> buscar_canal c cd0 = Some i0 ->
  forall ss, (forall s, In s ss -> In s (semanas config)) ->
  forall st, conserva st -> resto_en_rango (asignaciones_acumuladas st) ->
  conserva (fst (recorrido st ss)) /\
  resto_en_rango (asignaciones_acumuladas (fst (recorrido st ss))) /\
  Qabs (inject_Z (asignado_canal c (snd (recorrido st ss)))
        - (cupo_mensual i0 / T)
          * (inject_Z (asignaciones_acumuladas (fst (recorrido st ss)))
             - inject_Z (asignaciones_acumuladas st)))
  <= largo ss * ((1 # 2) + (cupo_mensual i0 / T) * (largo qs * (1 # 2))).
Proof.
  intros Hne Hb. induction ss as [|s ss IH]; intros Hss st Hc Hr.
  - cbn [recorrer fst snd]. repeat split; try tauto.
    change (asignado_canal c []) with 0%Z. change (inject_Z 0) with 0.
    rewrite largo_nil. apply Qabs_cota; lra.
  - rewrite recorrer_cons. cbn [fst snd].
    destruct (semana_abierta st s c i0 (Hss s (or_introl eq_refl)) Hne Hc Hr Hb)
      as (S1 & S2 & _ & S4).
    destruct (IH (fun x Hx => Hss x (or_intror Hx)) (fst (paso st s)) S1 S2)
      as (I1 & I2 & I3).
    repeat split; try tauto.
    rewrite asignado_canal_app, inject_Z_plus, largo_cons.
    apply Qabs_cota_inv in S4. apply Qabs_cota_inv in I3.
    destruct S4 as [S4a S4b]. destruct I3 as [I3a I3b].
    apply Qabs_cota; lra.
Qed.

(** C1 (amended).  Quota conservation up to rounding in a month whose weeks
    are all current or future.  Take one SKU whose configured weeks are
    distinct, all numbered at least the current ISO week, with positive
    seasonality factors; whose every channel has a row in every configured
    week; and whose quotas are at least half a unit.  Then for every channel
    the units assigned over the weeks of the month differ from the channel's
    monthly quota by at most [m/2 + w * (m - 1) * n/2], where [m] is the
    number of weeks, [n] the number of channels and [w] the channel's share
    of the SKU's total quota; whenever that bound is within
    [max(quota * 1%, 10)], so is the difference. *)
Theorem conservacion_en_mes_abierto :
  semanas config <> [] ->
  forall c i0,
  buscar_canal c cd0 = Some i0 ->
  Qabs (inject_Z (asignado_canal c
                    (procesar_sku config semana_actual sku_id grupo_sku))
        - cupo_mensual i0)
  <= cota_redondeo (largo (semanas config)) (largo cd0)
                   (cupo_mensual i0 / cupo_mensual_total_sku config grupo_sku)
  /\
  (cota_redondeo (largo (semanas config)) (largo cd0)
                 (cupo_mensual i0 / cupo_mensual_total_sku config grupo_sku)
   <= tolerancia (cupo_mensual i0) ->
   Qabs (inject_Z (asignado_canal c
                     (procesar_sku config semana_actual sku_id grupo_sku))
         - cupo_mensual i0)
   <= tolerancia (cupo_mensual i0)).
Proof.
  intros Hsem c i0 Hb.
  assert (Hne : cd0 <> []).
  { intro E. rewrite E in Hb. discriminate Hb. }
  pose proof (T_positivo Hne) as HT.
  assert (Hord : orden_de_proceso config <> []).
  { intro E. apply (f_equal (@List.length Z)) in E.
    unfold orden_de_proceso in E. rewrite ordenar_length in E.
    destruct (semanas config); [congruence|discriminate]. }
  destruct (ordenada_ultimo _ (ordenar_ordenada (semanas config)) Hord)
    as (init & mx & Eo & Hmx).
  fold (orden_de_proceso config) in Eo, Hmx.
  assert (Hin : forall s, In s (orden_de_proceso config) -> In s (semanas config)).
  { intros s Hs. unfold orden_de_proceso in Hs. now apply ordenar_In in Hs. }
  assert (Hmx_in : In mx (semanas config)).
  { apply Hin. rewrite Eo. apply in_or_app. right. now left. }
  assert (Hmax : forall s, In s (semanas config) -> (s <= mx)%Z).
  { intros s Hs. apply Hmx. unfold orden_de_proceso. now apply ordenar_In. }
  assert (Hinit : forall s, In s init -> In s (semanas config)).
  { intros s Hs. apply Hin. rewrite Eo. apply in_or_app. now left. }
  assert (Hr0 : resto_en_rango
                  (asignaciones_acumuladas (estado_inicial config grupo_sku))).
  { cbn [asignaciones_acumuladas estado_inicial].
    change (inject_Z 0) with 0.
    pose proof T_holgado. pose proof (largo_no_negativo qs). split; lra. }
  destruct (semanas_abiertas_del_mes c i0 Hne Hb init Hinit
              (estado_inicial config grupo_sku) conserva_inicial Hr0)
    as (I1 & I2 & I3).
  set (st1 := fst (recorrido (estado_inicial config grupo_sku) init)) in *.
  destruct (semana_abierta st1 mx c i0 Hmx_in Hne I1 I2 Hb)
    as (_ & _ & Ea & _).
  assert (Ep : teorico_de st1 mx == T - inject_Z (asignaciones_acumuladas st1)).
  { rewrite teorico_abierto, (proporcion_ultima mx Hmx_in Hmax). ring. }
  assert (Elargo : largo (semanas config) == largo init + 1).
  { assert (E : largo (orden_de_proceso config) == largo init + 1).
    { rewrite Eo, largo_app. reflexivity. }
    rewrite <- E. unfold largo, orden_de_proceso. now rewrite ordenar_length. }
  assert (Main :
    Qabs (inject_Z (asignado_canal c
                      (procesar_sku config semana_actual sku_id grupo_sku))
          - cupo_mensual i0)
    <= cota_redondeo (largo (semanas config)) (largo cd0)
                     (cupo_mensual i0 / cupo_mensual_total_sku config grupo_sku)).
  { unfold procesar_sku. rewrite Eo, recorrer_app. cbn [snd].
    fold st1. rewrite recorrer_cons. cbn [snd recorrer].
    rewrite app_nil_r, asignado_canal_app, inject_Z_plus, Ea.
    unfold cota_redondeo.
    rewrite cupo_mensual_total_sku_suma, Elargo, <- (largo_map cupo_de cd0).
    destruct (py_round_error (teorico_de st1 mx * (cupo_mensual i0 / T)))
      as [P1 P2].
    assert (Eprod : teorico_de st1 mx * (cupo_mensual i0 / T)
                    == (T - inject_Z (asignaciones_acumuladas st1))
                       * (cupo_mensual i0 / T))
      by (rewrite Ep; reflexivity).
    apply Qabs_cota_inv in I3. destruct I3 as [I3a I3b].
    cbn [asignaciones_acumuladas estado_inicial] in I3a, I3b.
    change (inject_Z 0) with 0 in I3a, I3b.
    assert (Ew : cupo_mensual i0 / T * T == cupo_mensual i0) by (field; lra).
    set (w := cupo_mensual i0 / T) in *.
    set (A1 := inject_Z (asignaciones_acumuladas st1)) in *.
    apply Qabs_cota; lra. }
  split; [exact Main|]. intro Hl. lra.
Qed.

End MesAbierto.

(** ** Concrete runs: witnesses and counterexamples *)

Section Corridas.
Import Escenarios.
Local Open Scope string_scope.


(** C10, witness.  Channel A sold 2000 units against a quota of 600 in the
    closed week 1: after that iteration every balance is [>= 0]. *)
Lemma bolsa_nunca_negativa_witness :
  Forall (fun e => 0 <= bolsa_disponible (snd e))
    (canales_data
       (fst (procesar_semana enero_2026 2 "SKU-1" df_exceso
               (estado_inicial enero_2026 df_exceso) 1))).
Proof.
  apply (proj2 (proj2 (proj2 (bolsa_nunca_negativa enero_2026 2 "SKU-1" df_exceso))))
    with (filas := snd (procesar_semana enero_2026 2 "SKU-1" df_exceso
                          (estado_inicial enero_2026 df_exceso) 1)).
  - en_cada_fila.
  - left. reflexivity.
Defined.


(** C7, witness.  Channel A sold its whole quota in the closed week 1; its
    rows of weeks 2, 3, 4 and 53 assign 0 units. *)
Lemma agotamiento_detiene_asignacion_witness :
  Forall (fun r => a_canal (base r) = "A" -> a_asignacion_canal (base r) = 0%Z)
    (snd (recorrer enero_2026 2 "SKU-1" df_agotado
            (fst (procesar_semana enero_2026 2 "SKU-1" df_agotado
                    (estado_inicial enero_2026 df_agotado) 1))
            [2; 3; 4; 53]%Z)).
Proof.
  assert (Hv : forall f, In f df_agotado -> 0 <= ventas_reales f)
    by en_cada_fila.
  assert (Hz : forall i,
             In ("A", i)
                (canales_data
                   (fst (procesar_semana enero_2026 2 "SKU-1" df_agotado
                           (estado_inicial enero_2026 df_agotado) 1))) ->
             bolsa_disponible i == 0).
  { intros i Hi. vm_compute in Hi.
    destruct Hi as [Hi|[Hi|[]]]; [|discriminate Hi].
    injection Hi as <-. vm_compute. reflexivity. }
  apply Forall_forall. intros r Hr Hc.
  exact (agotamiento_detiene_asignacion enero_2026 2 "SKU-1" df_agotado Hv
           _ "A" Hz [2; 3; 4; 53]%Z r Hr Hc).
Defined.

(** C3, witness.  Every row of the plan of [df_desbalance] read in ISO
    week 2 assigns at most the rounded balance its channel had at the start
    of the row's iteration. *)
Lemma asignacion_acotada_por_bolsa_witness :
  Forall (fun r =>
            exists k grupo s st i,
              In (s, st, snd (procesar_semana enero_2026 2 k grupo st s))
                 (traza_sku enero_2026 2 k grupo) /\
              buscar_canal (a_canal (base r)) (canales_data st) = Some i /\
              (a_asignacion_canal (base r) <= py_round (bolsa_disponible i))%Z)
    (fst (calcular_asignacion_semanal_secuencial
            semana_2_de_2026 df_desbalance enero_2026)).
Proof.
  apply Forall_forall. intros r Hr.
  assert (Hq : forall f, In f df_desbalance -> 0 <= cupo_mensual_canal f)
    by en_cada_fila.
  destruct (asignacion_acotada_por_bolsa semana_2_de_2026 df_desbalance
              enero_2026 Hq r Hr)
    as (k & grupo & s & st & i & primera & resto
        & _ & Hin & _ & Hb & _ & _ & Hc & _).
  exists k, grupo, s, st, i. repeat split; [exact Hin|exact Hb|exact Hc].
Defined.


(** C8, witness.  A snapshot of 100 units with 20 arriving and 30 reserved
    gives 90 units, whatever was carried. *)
Lemma disponibilidad_fisica_resuelta_witness :
  disponibilidad_fisica (Some 100) 20 30 7 = Qmax 0 (100 + 20 - 30).
Proof.
  apply (proj1 (proj1 (disponibilidad_fisica_resuelta
                         enero_2026 2 "SKU-1" df_desbalance)
                      (Some 100) 20 30 7) 100).
  - reflexivity.
  - reflexivity.
Defined.

(** C5, witness.  The plan of [df_sin_ventas] read in ISO week 6 assigns 2740
    units against a total quota of 1200: one WARNING line for the SKU. *)
Lemma validacion_por_sku_witness :
  match fst (calcular_asignacion_semanal_secuencial
               semana_6_de_2026 df_sin_ventas enero_2026) with
  | r0 :: resto =>
      validar_sku "SKU-1" (r0 :: resto) = [WARNING "SKU-1" 2740 1200 1540]
  | [] => False
  end.
Proof.
  destruct (fst (calcular_asignacion_semanal_secuencial
                   semana_6_de_2026 df_sin_ventas enero_2026))
    as [|r0 resto] eqn:E.
  - vm_compute in E. discriminate E.
  - vm_compute in E. injection E as <- <-.
    etransitivity.
    + apply (proj1 (proj2 (proj2 (proj2
               (validacion_por_sku semana_6_de_2026 df_sin_ventas enero_2026)))
               "SKU-1" _ _)).
      vm_compute. reflexivity.
    + vm_compute. reflexivity.
Defined.

(** C1, counterexample.  Enero 2026 read in ISO week 6: weeks 1 to 4 are
    closed, nothing was sold, 5000 units are on hand every week.  No cap
    binds, and channel A, whose quota is 900, is assigned
    180 + 225 + 300 + 450 + 900 = 2055 units. *)
Lemma conservacion_de_cupo_counterexample :
  sin_tope_fisico enero_2026 6 "SKU-1" df_sin_ventas = true /\
  buscar_canal "A" (canales_data (estado_inicial enero_2026 df_sin_ventas))
    = Some (mkCanalInfo 900 (cupos_semanales_de enero_2026 900) (3 # 4) 900) /\
  asignado_canal "A" (procesar_sku enero_2026 6 "SKU-1" df_sin_ventas)
    = 2055%Z /\
  ~ (Qabs (inject_Z 2055 - 900) <= tolerancia 900).
Proof.
  repeat split; try (vm_compute; reflexivity).
  apply Qlt_not_le. vm_compute. reflexivity.
Qed.

(** C3, counterexample.  Enero 2026 read in ISO week 2; the channel's quota
    is 10 and it sold 9.25 units in week 1.  At the start of the iteration
    of week 53 its balance is 0.75, and the row of week 53 assigns
    [round(0.75) = 1] unit. *)
Lemma capacidad_counterexample :
  In (53%Z, estado_fraccion_53,
      snd (procesar_semana enero_2026 2 "SKU-1" df_fraccion
             estado_fraccion_53 53))
     (traza_sku enero_2026 2 "SKU-1" df_fraccion) /\
  buscar_canal "A" (canales_data estado_fraccion_53)
    = Some (mkCanalInfo 10 (cupos_semanales_de enero_2026 10) 1 (3 # 4)) /\
  map (fun r => (a_canal (base r), a_asignacion_canal (base r)))
      (snd (procesar_semana enero_2026 2 "SKU-1" df_fraccion
              estado_fraccion_53 53))
    = [("A", 1%Z)] /\
  ~ (inject_Z 1 <= 3 # 4).
Proof.
  repeat split; try (vm_compute; reflexivity).
  - vm_compute. do 4 right. left. reflexivity.
  - apply Qlt_not_le. vm_compute. reflexivity.
Qed.

(** C5, counterexample.  Enero 2026 read in ISO week 2; both channels have
    quota 500 and channel A sold 200 units in week 1.  Channel A is assigned
    400 units over the month and channel B 600, each 100 units away from its
    quota and far beyond the tolerance of 10; the validation prints a single
    OK line for the SKU, whose total 1000 matches the total quota. *)
Lemma validacion_por_canal_counterexample :
  asignado_canal "A"
    (fst (calcular_asignacion_semanal_secuencial
            semana_2_de_2026 df_desbalance enero_2026)) = 400%Z /\
  asignado_canal "B"
    (fst (calcular_asignacion_semanal_secuencial
            semana_2_de_2026 df_desbalance enero_2026)) = 600%Z /\
  Forall (fun f => cupo_mensual_canal f == 500) df_desbalance /\
  ~ (Qabs (inject_Z 400 - 500) <= tolerancia 500) /\
  ~ (Qabs (inject_Z 600 - 500) <= tolerancia 500) /\
  snd (calcular_asignacion_semanal_secuencial
         semana_2_de_2026 df_desbalance enero_2026)
  = [OK "SKU-1" 1000 200 1000 800].
Proof.
  repeat split; try (vm_compute; reflexivity).
  - repeat constructor.
  - apply Qlt_not_le. vm_compute. reflexivity.
  - apply Qlt_not_le. vm_compute. reflexivity.
Qed.

(** C8, counterexample.  Diciembre 2025 read in ISO week 51.  The ledger
    has a snapshot for week 50 and it measures 0 units, with no arrivals and
    nothing reserved: [initial + arrivals - reserved] is 0.  The engine
    reports 100 units of physical availability for week 50, the balance
    carried from week 49. *)
Lemma disponibilidad_fisica_counterexample :
  In (fila_de_consulta "SKU-1" "producto" 50 (Some 0) 0 0 0 40 40 "A" 1)
     df_medida_cero /\
  disponibilidad_fisica (Some 0) 0 0 100 == 100 /\
  ~ (disponibilidad_fisica (Some 0) 0 0 100 == Qmax 0 (0 + 0 - 0)) /\
  map (fun r => (a_semana (base r), Qred (a_inventario_fisico (base r))))
      (fst (calcular_asignacion_semanal_secuencial
              semana_51_de_2025 df_medida_cero diciembre_2025))
  = [(49%Z, 100); (50%Z, 100); (51%Z, 100); (52%Z, 100)].
Proof.
  repeat split; try (vm_compute; reflexivity).
  - right. left. reflexivity.
  - vm_compute. discriminate.
Qed.

(** C1, witness.  [df_sin_ventas] read in ISO week 1: the five weeks of
    Enero 2026 are open, and channel A is assigned its quota of 900 within
    the rounding bound. *)
Lemma conservacion_en_mes_abierto_witness :
  Qabs (inject_Z (asignado_canal "A"
                    (procesar_sku enero_2026 1 "SKU-1" df_sin_ventas))
        - 900)
  <= cota_redondeo (largo (semanas enero_2026))
                   (largo (canales_data
                             (estado_inicial enero_2026 df_sin_ventas)))
                   (900 / cupo_mensual_total_sku enero_2026 df_sin_ventas).
Proof.
  apply (fun H1 H2 H3 H4 H5 H6 =>
           proj1 (conservacion_en_mes_abierto enero_2026 1 "SKU-1"
                    df_sin_ventas H1 H2 H3 H4 H5 H6 "A"
                    (mkCanalInfo 900 (cupos_semanales_de enero_2026 900)
                                 (3 # 4) 900)
                    eq_refl)).
  - repeat constructor; simpl; intuition discriminate.
  - intros s H. simpl in H. intuition lia.
  - intros s H. simpl in H.
    repeat (destruct H as [<-|H]; [vm_compute; reflexivity|]). destruct H.
  - intros s c Hs Hc. simpl in Hs. vm_compute in Hc.
    repeat (destruct Hs as [<-|Hs];
            [repeat (destruct Hc as [<-|Hc]; [vm_compute; discriminate|]);
             destruct Hc|]).
    destruct Hs.
  - en_cada_fila.
  - discriminate.
Defined.

(** Sales beyond the monthly quota.  Enero 2026 read in ISO week 2; channel
    A sold 2000 units in week 1 against a total quota of 1000.  The pool of
    the following weeks is negative, nothing floors it, and the rows of
    channel B assign -250 units each week. *)
Example asignacion_negativa_con_exceso :
  map (fun r => (a_semana (base r), a_canal (base r),
                 a_asignacion_canal (base r)))
      (fst (calcular_asignacion_semanal_secuencial
              semana_2_de_2026 df_exceso enero_2026))
  = [(1, "A", 120); (1, "B", 80); (2, "A", 0); (2, "B", -250);
     (3, "A", 0); (3, "B", -250); (4, "A", 0); (4, "B", -250);
     (53, "A", 0); (53, "B", -250)]%Z.
Proof. vm_compute. reflexivity. Qed.

End Corridas.
